(** * Peer discovery and connection topology of the gossipsub test plan

    A shallow embedding of [discovery.go]: the topology strategies, the
    peer subscriber ([waitForPeers]), [registerAndWait], the dispatch loops of
    [ConnectTopology] / [ConnectingToPeers] and [connectWithRetry].

    Conventions.
    - Go's [int64] and [int] (64-bit platform) are [Z]; the one arithmetic
      operation that can leave the range, the multiplication in
      [selectSinglePublisher], is wrapped explicitly with [wrap64].
    - [peer.ID] is a Go string, so it is a [string] here; the connected map
      [map[peer.ID]PeerRegistration] is a [gmap string PeerRegistration].
    - A Go panic is the [Panic] outcome of [Res].
    - Sources of nondeterminism (the permutation of [rand.Perm], the branch a
      [select] takes, the outcome of a dial) are explicit arguments.
    - [runenv.RecordMessage] calls only log and are left out. *)

From Stdlib Require Import ZArith String Ascii List Permutation Lia.
From Stdlib Require Import DecimalString.
From stdpp Require Import base gmap list strings.
Import ListNotations.

Local Open Scope string_scope.
Local Open Scope list_scope.
Local Open Scope Z_scope.

(** ** Outcomes *)

Inductive Res (A : Type) : Type :=
| Ok (a : A)
| Panic (msg : string).
Arguments Ok {A} a.
Arguments Panic {A} msg.

Definition bindRes {A B} (r : Res A) (k : A -> Res B) : Res B :=
  match r with
  | Ok a => k a
  | Panic m => Panic m
  end.

#[global] Instance Res_bind : MBind Res := fun A B k r => bindRes r k.
#[global] Instance Res_ret : MRet Res := fun A a => Ok a.

(** ** Data model *)

Abbreviation peerID := string.

(** [peer.AddrInfo]: the identity and the multi-addresses (kept as text). *)
Record AddrInfo := mkAddrInfo {
  ID : peerID;
  Addrs : list string
}.

Record PeerRegistration := mkPeerRegistration {
  Info : AddrInfo;
  NodeTypeSeq : Z;
  IsPublisher : bool
}.

Record ConnectionsDef := mkConnectionsDef {
  Latency : Z;
  Connections : list string
}.

Definition MaxConnectRetries : nat := 10.

(** Two's complement wrap-around of a 64-bit signed integer. *)
Definition wrap64 (z : Z) : Z := (z + 2 ^ 63) mod 2 ^ 64 - 2 ^ 63.

Definition int64_range (z : Z) : Prop := - 2 ^ 63 <= z < 2 ^ 63.

(** [len(l)] as a Go [int]. *)
Definition len {A} (l : list A) : Z := Z.of_nat (length l).

(** ** Library functions used by the strategies *)

(** [strings.Split(s, "-")]: the pieces between the dashes; a string with [n]
    dashes gives [n + 1] pieces, the empty string gives one empty piece. *)
Fixpoint Split_dash (s : string) : list string :=
  match s with
  | EmptyString => [EmptyString]
  | String c rest =>
      if Ascii.eqb c "-"%char then EmptyString :: Split_dash rest
      else match Split_dash rest with
           | [] => [String c EmptyString]
           | hd :: tl => String c hd :: tl
           end
  end.

(** [strconv.Itoa]: decimal digits, a leading minus sign for negatives. *)
Definition Itoa (z : Z) : string := NilZero.string_of_int (Z.to_int z).

(** ** Topology strategies *)

Record RandomTopology := mkRandomTopology { Count : Z }.

(** [indices] is the value [rand.Perm(len(remote))] returned. The loop reads
    [remote[indices[i]]] for [i < n]; an index out of range is a Go panic. *)
Fixpoint pickIndices (remote : list PeerRegistration) (idx : list nat)
  : Res (list PeerRegistration) :=
  match idx with
  | [] => Ok []
  | i :: rest =>
      match remote !! i with
      | None => Panic "index out of range"
      | Some p => out ← pickIndices remote rest; Ok (p :: out)
      end
  end.

Definition RandomTopology_SelectNPeers (n : Z) (indices : list nat)
    (local : peerID) (remote : list PeerRegistration)
  : Res (list PeerRegistration) :=
  if (len remote =? 0) || (n =? 0) then Ok []
  else
    let n := if n >? len remote then len remote else n in
    if n <? 0 then Panic "makeslice: len out of range"
    else if (len indices <? n) then Panic "index out of range"
    else pickIndices remote (take (Z.to_nat n) indices).

Definition RandomTopology_SelectPeers (t : RandomTopology) (indices : list nat)
    (local : peerID) (remote : list PeerRegistration)
  : Res (list PeerRegistration) :=
  if (len remote =? 0) || (Count t =? 0) then Ok []
  else
    let n := Count t in
    let n := if n >? len remote then len remote else n in
    if n <? 0 then Panic "makeslice: len out of range"
    else if (len indices <? n) then Panic "index out of range"
    else pickIndices remote (take (Z.to_nat n) indices).

Record RandomHonestTopology := mkRandomHonestTopology {
  RHCount : Z;
  PublishersOnly : bool
}.

Definition RandomHonestTopology_SelectPeers (t : RandomHonestTopology)
    (indices : list nat) (local : peerID) (remote : list PeerRegistration)
  : Res (list PeerRegistration) :=
  if len remote =? 0 then Ok []
  else
    let filtered :=
      List.filter (fun p => negb (PublishersOnly t) || IsPublisher p) remote in
    RandomTopology_SelectPeers (mkRandomTopology (RHCount t)) indices local filtered.

(** The loop of [selectSinglePublisher]; the state is [(lowest, lowestp)]. *)
Fixpoint selectLoop (peers : list PeerRegistration)
    (lowest : Z) (lowestp : PeerRegistration) : Z * PeerRegistration :=
  match peers with
  | [] => (lowest, lowestp)
  | p :: rest =>
      if IsPublisher p then
        let current := wrap64 (NodeTypeSeq p * 1000000) in
        if (lowest <? 0) || (current <? lowest)
        then selectLoop rest current p
        else selectLoop rest lowest lowestp
      else selectLoop rest lowest lowestp
  end.

(** The zero value of [PeerRegistration] ([var lowestp PeerRegistration]). *)
Definition zeroPeerRegistration : PeerRegistration :=
  mkPeerRegistration (mkAddrInfo "" []) 0 false.

Definition selectSinglePublisher (peers : list PeerRegistration)
  : option PeerRegistration :=
  let '(lowest, lowestp) := selectLoop peers (-1) zeroPeerRegistration in
  if lowest =? -1 then None else Some lowestp.

Definition SinglePublisherTopology_SelectPeers
    (local : peerID) (remote : list PeerRegistration) : list PeerRegistration :=
  match selectSinglePublisher remote with
  | Some publisher => [publisher]
  | None => []
  end.

(** [def] is a pointer in the source: [None] is the nil pointer. *)
Record FixedTopology := mkFixedTopology { def : option ConnectionsDef }.

(** The inner loop: the peers of [remote] whose sequence number prints as
    [nodeTypeSeq], in order. *)
Definition matchingPeers (nodeTypeSeq : string) (remote : list PeerRegistration)
  : list PeerRegistration :=
  List.filter (fun p => String.eqb nodeTypeSeq (Itoa (NodeTypeSeq p))) remote.

Fixpoint fixedLoop (conns : list string) (remote out : list PeerRegistration)
  : Res (list PeerRegistration) :=
  match conns with
  | [] => Ok out
  | conn :: rest =>
      let parts := Split_dash conn in
      if negb (length parts =? 3)%nat then Panic "Badly formatted topology file"
      else
        let nodeTypeSeq := List.hd "" parts in
        fixedLoop rest remote (out ++ matchingPeers nodeTypeSeq remote)
  end.

Definition FixedTopology_SelectPeers (t : FixedTopology)
    (local : peerID) (remote : list PeerRegistration)
  : Res (list PeerRegistration) :=
  if len remote =? 0 then Ok []
  else
    match def t with
    | None => Panic "invalid memory address or nil pointer dereference"
    | Some d => fixedLoop (Connections d) remote []
    end.

(** The [Topology] interface, as the closed family of its implementations. *)
Inductive Topology :=
| TRandom (t : RandomTopology)
| TRandomHonest (t : RandomHonestTopology)
| TSinglePublisher
| TFixed (t : FixedTopology).

Definition SelectPeers (t : Topology) (indices : list nat)
    (local : peerID) (remote : list PeerRegistration)
  : Res (list PeerRegistration) :=
  match t with
  | TRandom t => RandomTopology_SelectPeers t indices local remote
  | TRandomHonest t => RandomHonestTopology_SelectPeers t indices local remote
  | TSinglePublisher => Ok (SinglePublisherTopology_SelectPeers local remote)
  | TFixed t => FixedTopology_SelectPeers t local remote
  end.

(** ** Errors and call outcomes *)

Inductive error :=
| ErrContext (e : string)
    (* [ctx.Err()]: the context's own error value *)
| ErrNotEnoughPeers (expected got : Z)
    (* "not enough peer infos. expected %d, got %d" *)
| ErrSubscribe (e : string)
    (* the error [client.Subscribe] returned *)
| ErrPublish (e : string)
    (* "failed to write to pubsub subtree in sync service: %w" *)
| ErrRetry (log : list string).
    (* [retry.Error]: the errors of the failed attempts *)

(** How a call ends: it returns, it panics, or it waits for ever (the
    environment offers no further event). *)
Inductive Outcome (A : Type) : Type :=
| Returned (a : A)
| Panicked (msg : string)
| Blocked.
Arguments Returned {A} a.
Arguments Panicked {A} msg.
Arguments Blocked {A}.

(** ** The peer subscriber *)

(** The part of the sync client the code drives: how many subscriptions to
    the registration topic were opened and what was published to it. *)
Record SyncClient := mkSyncClient {
  subscribeCalls : nat;
  published : list PeerRegistration
}.

(** [peers = None] is the nil slice. *)
Record PeerSubscriber := mkPeerSubscriber {
  peers : option (list PeerRegistration);
  client : SyncClient;
  containerCount : Z
}.

Definition NewPeerSubscriber (client : SyncClient) (containerCount : Z)
  : PeerSubscriber :=
  mkPeerSubscriber None client containerCount.

(** The branch one [select] of the collection loop takes. *)
Inductive selectEvent :=
| RecvPeer (ai : PeerRegistration)   (* [ai, ok := <-peerCh], [ok] true *)
| RecvClosed                         (* [ai, ok := <-peerCh], [ok] false *)
| CtxDone (err : string).            (* [<-ctx.Done()], [ctx.Err() = err] *)

(** What the environment does during one call of [waitForPeers]. *)
Record WaitEnv := mkWaitEnv {
  subscribeErr : option string;
  events : list selectEvent
}.

Abbreviation WaitResult :=
  (Outcome (option (list PeerRegistration) * option error)).

(** [for i := 0; i < containerCount; i++ { select ... }]; [todo] iterations
    are left and [got] is [ps.peers]. *)
Fixpoint waitLoop (todo : nat) (evs : list selectEvent) (expected : Z)
    (got : list PeerRegistration) : list PeerRegistration * WaitResult :=
  match todo with
  | O => (got, Returned (Some got, None))
  | S todo' =>
      match evs with
      | [] => (got, Blocked)
      | RecvClosed :: _ =>
          (got, Returned (None, Some (ErrNotEnoughPeers expected (len got))))
      | RecvPeer ai :: evs' => waitLoop todo' evs' expected (got ++ [ai])
      | CtxDone e :: _ => (got, Returned (None, Some (ErrContext e)))
      end
  end.

Definition setPeers (ps : PeerSubscriber) (l : list PeerRegistration)
  : PeerSubscriber :=
  mkPeerSubscriber (Some l) (client ps) (containerCount ps).

Definition subscribe (ps : PeerSubscriber) : PeerSubscriber :=
  mkPeerSubscriber (peers ps)
    (mkSyncClient (S (subscribeCalls (client ps))) (published (client ps)))
    (containerCount ps).

(** The lock is held for the whole call, so calls of [waitForPeers] on one
    subscriber run one after the other. *)
Definition waitForPeers (env : WaitEnv) (ps : PeerSubscriber)
  : PeerSubscriber * WaitResult :=
  match peers ps with
  | Some l => (ps, Returned (Some l, None))
  | None =>
      if containerCount ps <? 0
      then (ps, Panicked "makeslice: cap out of range")
      else
        let ps := setPeers ps [] in
        if containerCount ps <=? 0
        then (ps, Panicked "invalid argument to Intn")
        else
          let ps := subscribe ps in
          match subscribeErr env with
          | Some e => (ps, Returned (None, Some (ErrSubscribe e)))
          | None =>
              let '(got, r) :=
                waitLoop (Z.to_nat (containerCount ps)) (events env)
                         (containerCount ps) [] in
              (setPeers ps got, r)
          end
  end.

Definition register (publishErr : option string) (entry : PeerRegistration)
    (ps : PeerSubscriber) : PeerSubscriber * option error :=
  match publishErr with
  | Some e => (ps, Some (ErrPublish e))
  | None =>
      (mkPeerSubscriber (peers ps)
         (mkSyncClient (subscribeCalls (client ps))
                       (published (client ps) ++ [entry]))
         (containerCount ps), None)
  end.

(** ** The discovery service *)

Record Host := mkHost {
  hostID : peerID;
  hostAddrs : list string;
  (* whether [h.Network()] is a [*swarm.Swarm] *)
  networkIsSwarm : bool
}.

Definition InfoFromHost (h : Host) : AddrInfo :=
  mkAddrInfo (hostID h) (hostAddrs h).

(** The [peerSubscriber] field is a pointer to a subscriber that several
    discovery services may share: it is threaded next to the record. *)
Record SyncDiscovery := mkSyncDiscovery {
  h : Host;
  topology : Topology;
  nodeTypeSeq : Z;
  isPublisher : bool;
  allPeers : list PeerRegistration;
  connected : gmap peerID PeerRegistration
}.

Definition NewSyncDiscovery (h : Host) (seq : Z) (topology : Topology)
  : SyncDiscovery :=
  mkSyncDiscovery h topology seq false [] ∅.

Definition setAllPeers (s : SyncDiscovery) (l : list PeerRegistration) :=
  mkSyncDiscovery (h s) (topology s) (nodeTypeSeq s) (isPublisher s)
                  l (connected s).

Definition setConnected (s : SyncDiscovery)
    (m : gmap peerID PeerRegistration) :=
  mkSyncDiscovery (h s) (topology s) (nodeTypeSeq s) (isPublisher s)
                  (allPeers s) m.

(** [p.Info.ID != localPeer.ID] *)
Definition notLocal (localID : peerID) (p : PeerRegistration) : bool :=
  negb (String.eqb (ID (Info p)) localID).

Record RegisterEnv := mkRegisterEnv {
  publishErr : option string;
  waitEnv : WaitEnv
}.

Definition registerAndWait (env : RegisterEnv) (s : SyncDiscovery)
    (ps : PeerSubscriber)
  : SyncDiscovery * PeerSubscriber * Outcome (option error) :=
  let localPeer := InfoFromHost (h s) in
  let entry := mkPeerRegistration localPeer (nodeTypeSeq s) (isPublisher s) in
  match register (publishErr env) entry ps with
  | (ps, Some err) => (s, ps, Returned (Some err))
  | (ps, None) =>
      match waitForPeers (waitEnv env) ps with
      | (ps, Blocked) => (s, ps, Blocked)
      | (ps, Panicked m) => (s, ps, Panicked m)
      | (ps, Returned (_, Some err)) => (s, ps, Returned (Some err))
      | (ps, Returned (None, None)) =>
          (* a nil slice: capacity [len(peers)-1] is negative *)
          (s, ps, Panicked "makeslice: cap out of range")
      | (ps, Returned (Some peers, None)) =>
          if len peers - 1 <? 0
          then (s, ps, Panicked "makeslice: cap out of range")
          else
            (setAllPeers s (List.filter (notLocal (ID localPeer)) peers),
             ps, Returned None)
      end
  end.

(** ** Connecting *)

(** The loop run under [connectedLk]: [tasks] collects the peers handed to
    [errgrp.Go], in order. *)
Fixpoint dispatchLoop (selected : list PeerRegistration)
    (connected : gmap peerID PeerRegistration) (tasks : list PeerRegistration)
  : gmap peerID PeerRegistration * list PeerRegistration :=
  match selected with
  | [] => (connected, tasks)
  | p :: rest =>
      match connected !! ID (Info p) with
      | Some _ => dispatchLoop rest connected tasks
      | None =>
          dispatchLoop rest (<[ID (Info p) := p]> connected) (tasks ++ [p])
      end
  end.

(** How the locked part of a connect call ends. The goroutines started by
    [errgrp.Go] run [connectWithRetry] outside the lock and do not touch
    the connected map. *)
Inductive ConnectOutcome :=
| ConnCtxErr (e : string)      (* [return ctx.Err()] before selecting *)
| ConnPanic (msg : string)
| ConnDispatched (tasks : list PeerRegistration).

Definition ConnectingToPeers (peers : list PeerRegistration)
    (s : SyncDiscovery) : SyncDiscovery * ConnectOutcome :=
  let selected := peers in
  if len selected =? 0
  then (s, ConnPanic "topology selected zero peers. so lonely!!!")
  else
    let '(m, tasks) := dispatchLoop selected (connected s) [] in
    (setConnected s m, ConnDispatched tasks).

(** [ctxDone] is the branch the first [select] takes: [Some e] when the
    context is done first; [indices] feeds a random strategy. *)
Definition ConnectTopology (ctxDone : option string) (indices : list nat)
    (s : SyncDiscovery) : SyncDiscovery * ConnectOutcome :=
  match ctxDone with
  | Some e => (s, ConnCtxErr e)
  | None =>
      match SelectPeers (topology s) indices (hostID (h s)) (allPeers s) with
      | Panic m => (s, ConnPanic m)
      | Ok selected =>
          if len selected =? 0
          then (s, ConnPanic "topology selected zero peers. so lonely!!!")
          else
            let '(m, tasks) := dispatchLoop selected (connected s) [] in
            (setConnected s m, ConnDispatched tasks)
      end
  end.

(** ** Retrying a dial *)

(** What reaches the transport. *)
Inductive netEvent :=
| Dial (p : peerID)
| ClearBackoff (p : peerID).

(** [retry.Do] of avast/retry-go with the options [Attempts] and [OnRetry]
    and the default [RetryIf] (every error is retried unless it was wrapped
    as unrecoverable, which no dial error is). The loop

      for n < attempts { err := f(); if err != nil { log; onRetry(n, err);
        if n == attempts-1 { break }; sleep } else { return nil }; n++ }

    calls [onRetry] after each failed attempt; the [break] only skips the
    sleep. [f n] is the outcome and the trace of call number [n]. *)
Fixpoint retry_loop {E : Type} (todo n : nat)
    (f : nat -> option string * list E)
    (onRetry : nat -> string -> list E)
    (errorLog : list string) : option error * list E :=
  match todo with
  | O => (Some (ErrRetry errorLog), [])
  | S todo' =>
      match f n with
      | (None, tr) => (None, tr)
      | (Some err, tr) =>
          let '(r, tr') :=
            retry_loop todo' (S n) f onRetry (errorLog ++ [err]) in
          (r, tr ++ onRetry n err ++ tr')
      end
  end.

Definition retry_Do {E : Type} (attempts : nat)
    (f : nat -> option string * list E) (onRetry : nat -> string -> list E)
  : option error * list E :=
  retry_loop attempts 0%nat f onRetry [].

(** [connect n] is what [s.h.Connect] returns on its call number [n]
    (counted from 0): [None] for success. *)
Definition connectWithRetry (connect : nat -> option string)
    (s : SyncDiscovery) (p : AddrInfo) : option error * list netEvent :=
  retry_Do MaxConnectRetries
    (fun n => (connect n, [Dial (ID p)]))
    (fun n err =>
       if networkIsSwarm (h s) then [ClearBackoff (ID p)] else []).

(** ** Sample data for the examples *)

Definition pr (id : peerID) (seq : Z) (pub : bool) : PeerRegistration :=
  mkPeerRegistration (mkAddrInfo id []) seq pub.

Definition fixedOf (conns : list string) : FixedTopology :=
  mkFixedTopology (Some (mkConnectionsDef 0 conns)).

(** The identities of a list of registrations. *)
Definition ids (l : list PeerRegistration) : list peerID :=
  map (fun p => ID (Info p)) l.

(** The first dash-separated field of a specifier. *)
Definition firstField (conn : string) : string := List.hd "" (Split_dash conn).

(** A specifier is well formed when it has three dash-separated fields. *)
Definition wellFormed (conn : string) : Prop := length (Split_dash conn) = 3%nat.

(** ** Vocabulary of the statements *)

(** The largest sequence number whose product with 1000000 fits an int64. *)
Definition maxScalableSeq : Z := 9223372036854.

(** The sequence numbers of the publishers are non-negative and small enough
    for the scaling by 1000000 not to overflow. *)
Definition publisherSeqsInRange (remote : list PeerRegistration) : Prop :=
  Forall (fun p => IsPublisher p = true -> 0 <= NodeTypeSeq p <= maxScalableSeq)
         remote.

(** [p] is the publisher of [l] with the lowest sequence number, and the
    first one of those. *)
Definition firstLowestPublisher (l : list PeerRegistration)
    (p : PeerRegistration) : Prop :=
  exists l1 l2,
    l = l1 ++ p :: l2 /\ IsPublisher p = true /\
    Forall (fun q => IsPublisher q = true -> NodeTypeSeq p < NodeTypeSeq q) l1 /\
    Forall (fun q => IsPublisher q = true -> NodeTypeSeq p <= NodeTypeSeq q) l2.

Definition noPublisher (l : list PeerRegistration) : Prop :=
  Forall (fun q => IsPublisher q = false) l.

(** The state of the loop after the prefix [pre]: the sentinel while no
    publisher was met, the scaled number of the best publisher afterwards. *)
Definition selectInv (pre : list PeerRegistration) (lowest : Z)
    (lowestp : PeerRegistration) : Prop :=
  (lowest = -1 /\ noPublisher pre) \/
  (lowest = NodeTypeSeq lowestp * 1000000 /\ 0 <= NodeTypeSeq lowestp /\
   firstLowestPublisher pre lowestp).

(** Five nodes register once each; the node "n3" keeps the other four. *)
Definition fiveNodes : list PeerRegistration :=
  [pr "n1" 1 true; pr "n2" 2 false; pr "n3" 3 false; pr "n4" 4 false;
   pr "n5" 5 false].

Definition lonely : string := "topology selected zero peers. so lonely!!!".

(** What one pass of the dispatch loop does to the connected map and to the
    list of started attempts. *)
Record dispatchInv (m m' : gmap peerID PeerRegistration)
    (new : list PeerRegistration) : Prop := mkDispatchInv {
  di_nodup : NoDup (ids new);
  di_fresh : forall p, p ∈ new -> m !! ID (Info p) = None;
  di_recorded : forall p, p ∈ new -> m' !! ID (Info p) = Some p;
  di_kept : forall id v, m !! id = Some v -> m' !! id = Some v;
  di_dom : forall id, is_Some (m' !! id) ->
                      is_Some (m !! id) \/ id ∈ ids new
}.

(** A call of one of the two connect entry points, with what the environment
    decides during the call. *)
Inductive connectCall :=
| CallConnectTopology (ctxDone : option string) (indices : list nat)
| CallConnectingToPeers (peers : list PeerRegistration).

Definition doCall (c : connectCall) (s : SyncDiscovery)
  : SyncDiscovery * ConnectOutcome :=
  match c with
  | CallConnectTopology ctxDone indices => ConnectTopology ctxDone indices s
  | CallConnectingToPeers peers => ConnectingToPeers peers s
  end.

(** The locked parts of the calls run one after the other, in the order in
    which the calls get the lock; [log] collects every started attempt. A
    panic ends the process. *)
Fixpoint runCalls (cs : list connectCall) (s : SyncDiscovery)
    (log : list PeerRegistration) : SyncDiscovery * list PeerRegistration :=
  match cs with
  | [] => (s, log)
  | c :: cs' =>
      match doCall c s with
      | (s', ConnDispatched tasks) => runCalls cs' s' (log ++ tasks)
      | (s', ConnCtxErr _) => runCalls cs' s' log
      | (s', ConnPanic _) => (s', log)
      end
  end.

Definition isDial (ev : netEvent) : bool :=
  match ev with Dial _ => true | ClearBackoff _ => false end.

Definition isClear (ev : netEvent) : bool :=
  match ev with Dial _ => false | ClearBackoff _ => true end.

Definition dials (tr : list netEvent) : nat := length (List.filter isDial tr).
Definition clears (tr : list netEvent) : nat := length (List.filter isClear tr).

(** What a failed attempt leaves in the trace: the dial, and the clearing of
    the peer's backoff entry when the network is a swarm. *)
Definition failedAttempt (s : SyncDiscovery) (p : AddrInfo) : list netEvent :=
  Dial (ID p) :: (if networkIsSwarm (h s) then [ClearBackoff (ID p)] else []).

Fixpoint repeatTrace (k : nat) (tr : list netEvent) : list netEvent :=
  match k with
  | O => []
  | S k' => tr ++ repeatTrace k' tr
  end.

Definition notSwarmDiscovery : SyncDiscovery :=
  NewSyncDiscovery (mkHost "me" [] false) 1 TSinglePublisher.

Definition swarmDiscovery : SyncDiscovery :=
  NewSyncDiscovery (mkHost "me" [] true) 1 TSinglePublisher.

(** The dial fails on the first [k] attempts and succeeds afterwards. *)
Definition failsFirst (k : nat) : nat -> option string :=
  fun n => if (n <? k)%nat then Some "dial backoff" else None.

(** ** The snapshot accessor, the network set-up and further vocabulary *)

(** [Connected()]: the values of the connected map. Go ranges over a map in
    an unspecified order; [map_to_list] fixes one order, and statements about
    the result are up to permutation. *)
Definition Connected (s : SyncDiscovery) : list PeerRegistration :=
  (map_to_list (connected s)).*2.

(** Successive calls of [waitForPeers] on one subscriber, each with its own
    environment; a call that panics or never returns ends the run. *)
Fixpoint runWaits (envs : list WaitEnv) (ps : PeerSubscriber) : PeerSubscriber :=
  match envs with
  | [] => ps
  | env :: rest =>
      match waitForPeers env ps with
      | (ps', Returned _) => runWaits rest ps'
      | (ps', _) => ps'
      end
  end.

(** The number of dashes of a string. *)
Fixpoint countDash (s : string) : nat :=
  match s with
  | EmptyString => 0%nat
  | String c rest =>
      ((if Ascii.eqb c "-"%char then 1 else 0) + countDash rest)%nat
  end.

(** The publishers of a list, in order. *)
Definition publishers (l : list PeerRegistration) : list PeerRegistration :=
  List.filter IsPublisher l.

(** Wrap-around of an unsigned 64-bit integer. *)
Definition wrapU64 (z : Z) : Z := z mod 2 ^ 64.

(** [network.LinkShape], the two fields the code sets: the latency is a
    [time.Duration] (nanoseconds, int64), the bandwidth a uint64. *)
Record LinkShape := mkLinkShape {
  ShapeLatency : Z;
  Bandwidth : Z
}.

Inductive RoutingPolicyType := AllowAll | DenyAll.

(** [network.Config], the fields the code sets. *)
Record NetworkConfig := mkNetworkConfig {
  Network : string;
  Enable : bool;
  Default : LinkShape;
  CallbackState : string;
  RoutingPolicy : RoutingPolicyType
}.

(** What the collaborators of [setupNetwork] answer: the errors of
    [WaitNetworkInitialized] and [ConfigureNetwork], and the number
    [rand.Intn] returns. *)
Record NetworkEnv := mkNetworkEnv {
  waitInitErr : option string;
  intn : Z;
  configureErr : option string
}.

(** [setupNetwork] of test.go. The result is the pair [(config, err)];
    [rand.Intn n] panics unless [n] is positive. *)
Definition setupNetwork (testSidecar : bool) (env : NetworkEnv)
    (latencyMin latencyMax bandwidth : Z)
  : Res (option NetworkConfig * option string) :=
  if negb testSidecar then Ok (None, None)
  else
    match waitInitErr env with
    | Some err => Ok (None, Some err)
    | None =>
        let n := wrap64 (latencyMax - latencyMin) in
        if n <=? 0 then Panic "invalid argument to Intn"
        else
          let lat := wrap64 (intn env + latencyMin) in
          let bw := wrapU64 (wrapU64 (wrapU64 bandwidth * 1000) * 1000) in
          let config :=
            mkNetworkConfig "default" true
              (mkLinkShape (wrap64 (lat * 1000000)) bw)
              "network-configured" DenyAll in
          match configureErr env with
          | Some err => Ok (None, Some err)
          | None => Ok (Some config, None)
          end
    end.

(** * Properties *)

(** ** FixedTopology *)

Lemma matchingPeers_filter (f : string) (remote : list PeerRegistration) :
  matchingPeers f remote = filter (fun p => Itoa (NodeTypeSeq p) = f) remote.
Proof.
  unfold matchingPeers.
  induction remote as [|p remote IH]; [reflexivity|].
  cbn [List.filter]. rewrite filter_cons, IH.
  destruct (String.eqb_spec f (Itoa (NodeTypeSeq p))) as [->|Hne].
  - rewrite decide_True by reflexivity. reflexivity.
  - rewrite decide_False by congruence. reflexivity.
Qed.

Lemma fixedLoop_wellFormed (conns : list string) :
  Forall wellFormed conns ->
  forall remote out,
    fixedLoop conns remote out =
    Ok (out ++ flat_map (fun c => matchingPeers (firstField c) remote) conns).
Proof.
  induction 1 as [|c conns Hc _ IH]; intros remote out; cbn [fixedLoop flat_map].
  - by rewrite app_nil_r.
  - unfold wellFormed in Hc. rewrite Hc. cbn [Nat.eqb negb].
    rewrite IH. by rewrite <- app_assoc.
Qed.

Lemma fixedLoop_malformed (conns : list string) :
  Exists (fun c => ~ wellFormed c) conns ->
  forall remote out,
    fixedLoop conns remote out = Panic "Badly formatted topology file".
Proof.
  induction conns as [|c conns IH]; intros Hex remote out.
  - by apply Exists_nil in Hex.
  - cbn [fixedLoop]. destruct (Nat.eqb_spec (length (Split_dash c)) 3) as [Hc|Hc].
    + cbn [negb]. apply IH. apply Exists_cons in Hex as [Hbad|Hex]; [|done].
      by destruct Hbad.
    + reflexivity.
Qed.

(** C10. On an empty remote list [FixedTopology.SelectPeers] returns the empty
    subset whatever the specifiers are (malformed ones, or even a nil
    definition, included): the guard on [len(remote) == 0] comes before any
    specifier is split, so the fatal error can only come up for a non-empty
    remote list. *)
Theorem FixedTopology_empty_remote_no_validation :
  forall (t : FixedTopology) (local : peerID),
    FixedTopology_SelectPeers t local [] = Ok [].
Proof. intros t local. reflexivity. Qed.

(** C7, as stated, fails: the two-field specifier ["5-x"] is malformed, yet
    with an empty remote list the call returns the empty subset and no fatal
    error. *)
Lemma FixedTopology_malformed_not_fatal_on_empty_remote :
  ~ wellFormed "5-x" /\
  FixedTopology_SelectPeers (fixedOf ["5-x"]) "me" [] = Ok [].
Proof. split; [unfold wellFormed; cbn; lia | reflexivity]. Qed.

(** C7, amended. For a non-empty remote list: when every specifier has exactly
    three dash-separated fields the result is, specifier after specifier, every
    remote peer whose sequence number prints as the specifier's first field;
    when some specifier has another number of fields the call panics with
    "Badly formatted topology file". *)
Theorem FixedTopology_SelectPeers_nonempty_remote
    (conns : list string) (local : peerID) (remote : list PeerRegistration) :
  remote <> [] ->
  (Forall wellFormed conns ->
   FixedTopology_SelectPeers (fixedOf conns) local remote =
   Ok (flat_map
         (fun c => filter (fun p => Itoa (NodeTypeSeq p) = firstField c) remote)
         conns)) /\
  (Exists (fun c => ~ wellFormed c) conns ->
   FixedTopology_SelectPeers (fixedOf conns) local remote =
   Panic "Badly formatted topology file").
Proof.
  intros Hne. unfold FixedTopology_SelectPeers, fixedOf; cbn [def Connections].
  destruct remote as [|p remote]; [done|].
  replace (len (p :: remote) =? 0) with false
    by (symmetry; apply Z.eqb_neq; unfold len; cbn [length]; lia).
  split.
  - intros Hwf. rewrite (fixedLoop_wellFormed _ Hwf). cbn [app]. f_equal.
    induction conns as [|c conns IH]; [reflexivity|].
    cbn [flat_map]. rewrite matchingPeers_filter. f_equal.
    apply IH. by apply Forall_inv_tail in Hwf.
  - intros Hex. by apply fixedLoop_malformed.
Qed.

(** The specifier "5-x-y" over the sequence numbers 5 and 7 selects the peer
    numbered 5; the specifier "5-x" is fatal there. *)
Lemma FixedTopology_SelectPeers_nonempty_remote_witness :
  FixedTopology_SelectPeers (fixedOf ["5-x-y"]) "me"
    [pr "a" 5 false; pr "b" 7 false] = Ok [pr "a" 5 false] /\
  FixedTopology_SelectPeers (fixedOf ["5-x"]) "me"
    [pr "a" 5 false; pr "b" 7 false] = Panic "Badly formatted topology file".
Proof.
  split.
  - apply (FixedTopology_SelectPeers_nonempty_remote ["5-x-y"] "me"
             [pr "a" 5 false; pr "b" 7 false]); [discriminate|].
    repeat constructor.
  - apply (FixedTopology_SelectPeers_nonempty_remote ["5-x"] "me"
             [pr "a" 5 false; pr "b" 7 false]); [discriminate|].
    apply Exists_cons_hd. unfold wellFormed. cbn. lia.
Defined.

(** ** SinglePublisherTopology *)

Lemma wrap64_scaled (z : Z) :
  0 <= z <= maxScalableSeq -> wrap64 (z * 1000000) = z * 1000000.
Proof.
  unfold wrap64, maxScalableSeq. intros Hz.
  rewrite Z.mod_small; lia.
Qed.

Lemma firstLowestPublisher_snoc_keep l p q :
  firstLowestPublisher l p ->
  (IsPublisher q = true -> NodeTypeSeq p <= NodeTypeSeq q) ->
  firstLowestPublisher (l ++ [q]) p.
Proof.
  intros (l1 & l2 & -> & Hp & H1 & H2) Hq.
  exists l1, (l2 ++ [q]). repeat split; try done.
  - by rewrite <- app_assoc.
  - apply Forall_app; split; [done|]. by constructor.
Qed.

Lemma firstLowestPublisher_snoc_replace l p q :
  firstLowestPublisher l p ->
  IsPublisher q = true -> NodeTypeSeq q < NodeTypeSeq p ->
  firstLowestPublisher (l ++ [q]) q.
Proof.
  intros (l1 & l2 & -> & Hp & H1 & H2) Hq Hlt.
  exists (l1 ++ p :: l2), []. repeat split; try done.
  apply Forall_app; split.
  - eapply Forall_impl; [exact H1|]. cbn. intros x Hx Hpub. specialize (Hx Hpub). lia.
  - constructor; [intros _; lia|].
    eapply Forall_impl; [exact H2|]. cbn. intros x Hx Hpub. specialize (Hx Hpub). lia.
Qed.

Lemma selectLoop_inv (todo : list PeerRegistration) :
  publisherSeqsInRange todo ->
  forall pre lowest lowestp,
    selectInv pre lowest lowestp ->
    selectInv (pre ++ todo) (selectLoop todo lowest lowestp).1
              (selectLoop todo lowest lowestp).2.
Proof.
  induction 1 as [|q todo Hq _ IH]; intros pre lowest lowestp Hinv.
  - by rewrite app_nil_r.
  - cbn [selectLoop].
    replace (pre ++ q :: todo) with ((pre ++ [q]) ++ todo)
      by (by rewrite <- app_assoc).
    destruct (IsPublisher q) eqn:Hpub.
    + specialize (Hq eq_refl). rewrite (wrap64_scaled _ Hq).
      destruct Hinv as [[-> Hnone] | (-> & Hge & Hbest)].
      * cbn [Z.ltb Z.compare orb]. apply IH. right. repeat split; [lia|].
        exists pre, []. repeat split; try done.
        eapply Forall_impl; [exact Hnone|]. cbn. intros x Hx Hx'. congruence.
      * replace (NodeTypeSeq lowestp * 1000000 <? 0) with false
          by (symmetry; apply Z.ltb_ge; lia).
        cbn [orb].
        destruct (Z.ltb_spec (NodeTypeSeq q * 1000000)
                             (NodeTypeSeq lowestp * 1000000)) as [Hlt|Hle].
        -- apply IH. right. repeat split; [lia|].
           apply firstLowestPublisher_snoc_replace with lowestp; [done..|lia].
        -- apply IH. right. repeat split; [lia|].
           apply firstLowestPublisher_snoc_keep; [done|]. intros _. lia.
    + apply IH. destruct Hinv as [[-> Hnone] | (-> & Hge & Hbest)].
      * left. split; [done|]. apply Forall_app; split; [done|]. by constructor.
      * right. repeat split; [done|].
        apply firstLowestPublisher_snoc_keep; [done|]. congruence.
Qed.

(** C6, as stated, fails: with a negative sequence number the sentinel test
    [lowest < 0] stays true, so the later publisher replaces the earlier one
    although its sequence number is higher. *)
Lemma SinglePublisherTopology_negative_seq_not_lowest :
  SinglePublisherTopology_SelectPeers "me" [pr "a" (-1) true; pr "b" 5 true]
    = [pr "b" 5 true] /\
  IsPublisher (pr "a" (-1) true) = true /\
  NodeTypeSeq (pr "a" (-1) true) < NodeTypeSeq (pr "b" 5 true) /\
  int64_range (-1) /\ int64_range 5.
Proof. unfold int64_range. repeat split; lia. Qed.

(** C6, amended. When the publishers' sequence numbers lie between 0 and
    9223372036854 (so that the code's scaling by 1000000 stays within int64),
    [SinglePublisherTopology.SelectPeers] returns the empty subset if the list
    has no publisher, and otherwise the one-element subset holding the
    publisher with the lowest sequence number, the first such peer in
    iteration order on ties. Over {seq:3,pub}, {seq:1,pub}, {seq:2,not pub} it
    returns {seq:1,pub}. *)
Theorem SinglePublisherTopology_SelectPeers_lowest
    (local : peerID) (remote : list PeerRegistration) :
  publisherSeqsInRange remote ->
  (noPublisher remote /\ SinglePublisherTopology_SelectPeers local remote = [])
  \/
  (exists p, firstLowestPublisher remote p /\
             SinglePublisherTopology_SelectPeers local remote = [p]).
Proof.
  intros Hrange.
  assert (Hinit : selectInv [] (-1) zeroPeerRegistration)
    by (left; split; [reflexivity | constructor]).
  pose proof (selectLoop_inv remote Hrange [] (-1) zeroPeerRegistration Hinit)
    as Hinv.
  cbn [app] in Hinv.
  unfold SinglePublisherTopology_SelectPeers, selectSinglePublisher.
  destruct (selectLoop remote (-1) zeroPeerRegistration) as [lowest lowestp].
  cbn [fst snd] in Hinv.
  destruct Hinv as [[-> Hnone] | (-> & Hge & Hbest)].
  - left. split; [done|]. reflexivity.
  - right. exists lowestp. split; [done|].
    replace (NodeTypeSeq lowestp * 1000000 =? -1) with false
      by (symmetry; apply Z.eqb_neq; lia).
    reflexivity.
Qed.

(** The spec's own example. *)
Example SinglePublisherTopology_example :
  SinglePublisherTopology_SelectPeers "me"
    [pr "a" 3 true; pr "b" 1 true; pr "c" 2 false] = [pr "b" 1 true].
Proof. reflexivity. Qed.

Lemma SinglePublisherTopology_SelectPeers_lowest_witness :
  let remote := [pr "a" 3 true; pr "b" 1 true; pr "c" 2 false] in
  (noPublisher remote /\ SinglePublisherTopology_SelectPeers "me" remote = [])
  \/
  (exists p, firstLowestPublisher remote p /\
             SinglePublisherTopology_SelectPeers "me" remote = [p]).
Proof.
  intros remote.
  apply (SinglePublisherTopology_SelectPeers_lowest "me" remote).
  unfold remote, publisherSeqsInRange, maxScalableSeq.
  repeat constructor; cbn; lia.
Defined.

(** ** RandomTopology *)

Lemma pickIndices_app (remote : list PeerRegistration) (a b : list nat) :
  pickIndices remote (a ++ b) =
  (oa ← pickIndices remote a; ob ← pickIndices remote b; Ok (oa ++ ob)).
Proof.
  induction a as [|i a IH]; cbn [pickIndices app].
  - unfold mbind, Res_bind, bindRes. by destruct (pickIndices remote b).
  - destruct (remote !! i) as [p|]; [|reflexivity].
    rewrite IH. unfold mbind, Res_bind, bindRes.
    destruct (pickIndices remote a); [|reflexivity].
    by destruct (pickIndices remote b).
Qed.

Lemma pickIndices_cons_Ok remote i idx out :
  pickIndices remote (i :: idx) = Ok out <->
  exists p out', remote !! i = Some p /\ pickIndices remote idx = Ok out' /\
                 out = p :: out'.
Proof.
  cbn [pickIndices]. unfold mbind, Res_bind, bindRes. split.
  - destruct (remote !! i) as [p|]; [|discriminate].
    destruct (pickIndices remote idx) as [out'|]; [|discriminate].
    intros [= <-]. by exists p, out'.
  - intros (p & out' & -> & -> & ->). reflexivity.
Qed.

Lemma pickIndices_perm (remote : list PeerRegistration) (a b : list nat) :
  a ≡ₚ b ->
  forall oa, pickIndices remote a = Ok oa ->
  exists ob, pickIndices remote b = Ok ob /\ oa ≡ₚ ob.
Proof.
  induction 1 as [|i a b _ IH|i j a|a b c _ IHab _ IHbc]; intros oa Hoa.
  - exists oa. by split.
  - apply pickIndices_cons_Ok in Hoa as (p & oa' & Hi & Ha & ->).
    destruct (IH _ Ha) as (ob & Hb & Hperm).
    exists (p :: ob). split; [|by constructor].
    apply pickIndices_cons_Ok. by exists p, ob.
  - apply pickIndices_cons_Ok in Hoa as (p & o1 & Hj & Ha & ->).
    apply pickIndices_cons_Ok in Ha as (q & o2 & Hi & Ha & ->).
    exists (q :: p :: o2). split; [|by constructor].
    apply pickIndices_cons_Ok. exists q, (p :: o2). repeat split; [done|].
    apply pickIndices_cons_Ok. by exists p, o2.
  - destruct (IHab _ Hoa) as (ob & Hb & Hperm1).
    destruct (IHbc _ Hb) as (oc & Hc & Hperm2).
    exists oc. split; [done|]. by etransitivity.
Qed.

Lemma pickIndices_seq (pre l : list PeerRegistration) :
  pickIndices (pre ++ l) (seq (length pre) (length l)) = Ok l.
Proof.
  revert pre. induction l as [|p l IH]; intros pre; [reflexivity|].
  cbn [length seq]. apply pickIndices_cons_Ok. exists p, l. repeat split.
  - by apply list_lookup_middle.
  - replace (pre ++ p :: l) with ((pre ++ [p]) ++ l) by (by rewrite <- app_assoc).
    replace (S (length pre)) with (length (pre ++ [p]))
      by (rewrite length_app; cbn; lia).
    apply IH.
Qed.

Lemma pickIndices_length remote idx out :
  pickIndices remote idx = Ok out -> length out = length idx.
Proof.
  revert out. induction idx as [|i idx IH]; intros out.
  - by intros [= <-].
  - intros (p & out' & _ & Hout & ->)%pickIndices_cons_Ok.
    cbn. f_equal. by apply IH.
Qed.

(** Reading the first [k] entries of a permutation of the indices draws [k]
    entries of [remote] without replacement. *)
Lemma pickIndices_take_perm (remote : list PeerRegistration)
    (indices : list nat) (k : nat) :
  indices ≡ₚ seq 0 (length remote) ->
  (k <= length remote)%nat ->
  exists out rest,
    pickIndices remote (take k indices) = Ok out /\
    length out = k /\ out ++ rest ≡ₚ remote.
Proof.
  intros Hperm Hk.
  assert (Hlen : length indices = length remote)
    by (by rewrite Hperm, length_seq).
  pose proof (pickIndices_seq [] remote) as Hall. cbn [app length] in Hall.
  destruct (pickIndices_perm remote _ _ (symmetry Hperm) _ Hall)
    as (full & Hfull & Hpf).
  rewrite <- (take_drop k indices), pickIndices_app in Hfull.
  unfold mbind, Res_bind, bindRes in Hfull.
  destruct (pickIndices remote (take k indices)) as [out|] eqn:Hout;
    [|discriminate].
  destruct (pickIndices remote (drop k indices)) as [rest|] eqn:Hrest;
    [|discriminate].
  injection Hfull as <-.
  exists out, rest. repeat split; [|done].
  apply pickIndices_length in Hout. rewrite Hout, length_take. lia.
Qed.

(** C5, as stated, fails: the strategy never looks at [local], so a remote
    list that holds the local node's record yields the local node. *)
Lemma RandomTopology_selects_local_when_listed :
  ([0%nat] ≡ₚ seq 0 (length [pr "a" 1 false])) /\
  exists out,
    RandomTopology_SelectPeers (mkRandomTopology 1) [0%nat] "a"
      [pr "a" 1 false] = Ok out /\
    "a" ∈ ids out.
Proof.
  split; [reflexivity|].
  exists [pr "a" 1 false]. split; [reflexivity|]. cbn. set_solver.
Qed.

(** C5, amended. For a count that is not negative and a remote list whose
    identities are pairwise distinct and all differ from the local node, and
    whatever permutation [rand.Perm] returns: [RandomTopology.SelectPeers]
    returns exactly min(count, |remote|) peers drawn from [remote] without
    replacement, with no duplicates and none equal to the local node; with a
    count of 0 or an empty remote list this is the empty subset, not an
    error. *)
Theorem RandomTopology_SelectPeers_distinct
    (t : RandomTopology) (indices : list nat) (local : peerID)
    (remote : list PeerRegistration) :
  indices ≡ₚ seq 0 (length remote) ->
  0 <= Count t ->
  NoDup (ids remote) ->
  local ∉ ids remote ->
  exists out,
    RandomTopology_SelectPeers t indices local remote = Ok out /\
    len out = Z.min (Count t) (len remote) /\
    (exists rest, out ++ rest ≡ₚ remote) /\
    NoDup (ids out) /\
    (local ∉ ids out) /\
    (Count t = 0 \/ remote = [] -> out = []).
Proof.
  intros Hperm Hcount Hnodup Hlocal.
  assert (Hgoal : exists out,
    RandomTopology_SelectPeers t indices local remote = Ok out /\
    len out = Z.min (Count t) (len remote) /\
    (exists rest, out ++ rest ≡ₚ remote)).
  { unfold RandomTopology_SelectPeers.
    destruct (Z.eqb_spec (len remote) 0) as [Hr|Hr]; cbn [orb].
    { exists []. split; [done|]. split; [unfold len in *; cbn; lia|].
      exists remote. done. }
    destruct (Z.eqb_spec (Count t) 0) as [Hc|Hc].
    { exists []. split; [done|]. split; [unfold len in *; cbn; lia|].
      exists remote. done. }
    set (n := if Count t >? len remote then len remote else Count t).
    assert (Hn : n = Z.min (Count t) (len remote)).
    { unfold n. destruct (Z.gtb_spec (Count t) (len remote)); lia. }
    assert (Hn0 : 0 <= n <= len remote) by (unfold len in *; lia).
    replace (n <? 0) with false by (symmetry; apply Z.ltb_ge; lia).
    assert (Hlen : len indices = len remote).
    { unfold len. by rewrite Hperm, length_seq. }
    replace (len indices <? n) with false by (symmetry; apply Z.ltb_ge; lia).
    destruct (pickIndices_take_perm remote indices (Z.to_nat n) Hperm)
      as (out & rest & Hout & Hlo & Hpr); [unfold len in *; lia|].
    exists out. split; [done|]. split; [unfold len in *; lia|]. by exists rest. }
  destruct Hgoal as (out & Hsel & Hlen & rest & Hpr).
  exists out. split; [done|]. split; [done|]. split; [by exists rest|].
  assert (Hids : ids out ++ ids rest ≡ₚ ids remote).
  { unfold ids. rewrite <- map_app. by apply Permutation_map. }
  split; [|split].
  - rewrite <- Hids in Hnodup. by apply NoDup_app in Hnodup as [? _].
  - intros Hin. apply Hlocal. rewrite <- Hids. apply elem_of_app. by left.
  - intros Hz. apply nil_length_inv.
    assert (Hmin : Z.min (Count t) (len remote) = 0).
    { destruct Hz as [Hz|Hz]; [rewrite Hz | rewrite Hz]; unfold len; cbn [length]; lia. }
    unfold len in *. lia.
Qed.

Lemma RandomTopology_SelectPeers_distinct_witness :
  exists out,
    RandomTopology_SelectPeers (mkRandomTopology 2) [2; 0; 1]%nat "me"
      [pr "a" 5 false; pr "b" 7 false; pr "c" 8 true] = Ok out /\
    len out = Z.min 2 3 /\
    (exists rest, out ++ rest ≡ₚ [pr "a" 5 false; pr "b" 7 false; pr "c" 8 true]) /\
    NoDup (ids out) /\
    ("me" ∉ ids out) /\
    (2 = 0 \/ [pr "a" 5 false; pr "b" 7 false; pr "c" 8 true] = [] -> out = []).
Proof.
  apply (RandomTopology_SelectPeers_distinct (mkRandomTopology 2)
           [2; 0; 1]%nat "me" [pr "a" 5 false; pr "b" 7 false; pr "c" 8 true]).
  - cbn. etransitivity; [apply perm_swap|]. apply perm_skip, perm_swap.
  - cbn. lia.
  - apply (bool_decide_unpack _). vm_compute. exact I.
  - apply (bool_decide_unpack _). vm_compute. exact I.
Defined.

(** ** The peer subscriber *)

Lemma waitLoop_recv (records : list PeerRegistration) :
  forall todo evs expected got,
    (length records <= todo)%nat ->
    waitLoop todo (map RecvPeer records ++ evs) expected got =
    waitLoop (todo - length records) evs expected (got ++ records).
Proof.
  induction records as [|r records IH]; intros todo evs expected got Hle.
  - cbn [map app length]. by rewrite Nat.sub_0_r, app_nil_r.
  - cbn [length] in Hle. destruct todo as [|todo]; [lia|].
    cbn [map app waitLoop length Nat.sub]. rewrite IH by lia.
    by rewrite <- app_assoc.
Qed.

Lemma waitLoop_success todo :
  forall evs expected got got' l,
    waitLoop todo evs expected got = (got', Returned (Some l, None)) ->
    l = got' /\ length got' = (length got + todo)%nat.
Proof.
  induction todo as [|todo IH]; intros evs expected got got' l; cbn [waitLoop].
  - intros [= <- <-]. split; [done | lia].
  - destruct evs as [|[ai| |e] evs]; try discriminate.
    intros H. apply IH in H as [-> Hlen]. split; [done|].
    rewrite Hlen, length_app. cbn. lia.
Qed.

(** A cached list is returned as it is, and nothing else happens. *)
Lemma waitForPeers_cached env ps l :
  peers ps = Some l ->
  waitForPeers env ps = (ps, Returned (Some l, None)).
Proof. intros H. unfold waitForPeers. by rewrite H. Qed.

(** A call that returns a list leaves that list cached. *)
Lemma waitForPeers_success_cached env ps ps' l :
  waitForPeers env ps = (ps', Returned (Some l, None)) ->
  peers ps' = Some l /\
  (peers ps = None -> len l = containerCount ps).
Proof.
  unfold waitForPeers. destruct (peers ps) as [l0|] eqn:Hp.
  - intros [= <- <-]. split; [done | discriminate].
  - destruct (containerCount ps <? 0); [discriminate|].
    cbn [setPeers containerCount].
    destruct (Z.leb_spec (containerCount ps) 0) as [|Hpos]; [discriminate|].
    cbn [subscribe containerCount].
    destruct (subscribeErr env); [discriminate|].
    destruct (waitLoop _ _ _ _) as [got r] eqn:Hloop.
    intros [= <- ->]. apply waitLoop_success in Hloop as [-> Hlen].
    split; [reflexivity|]. intros _. unfold len.
    cbn [length setPeers subscribe containerCount] in Hlen. lia.
Qed.

(** After a pass that returned a list, every later call returns that same
    list and opens no further subscription. *)
Lemma waitForPeers_memo_after_success env1 env2 ps ps1 l :
  waitForPeers env1 ps = (ps1, Returned (Some l, None)) ->
  waitForPeers env2 ps1 = (ps1, Returned (Some l, None)).
Proof.
  intros H. apply waitForPeers_success_cached in H as [H _].
  by apply waitForPeers_cached.
Qed.

(** One call opens at most one subscription. *)
Lemma waitForPeers_subscribes_at_most_once env ps :
  (subscribeCalls (client (waitForPeers env ps).1)
   <= S (subscribeCalls (client ps)))%nat.
Proof.
  unfold waitForPeers. destruct (peers ps); [cbn; lia|].
  destruct (containerCount ps <? 0); [cbn; lia|].
  cbn [setPeers containerCount].
  destruct (containerCount ps <=? 0); [cbn; lia|].
  cbn [subscribe containerCount].
  destruct (subscribeErr env); [cbn; lia|].
  destruct (waitLoop _ _ _ _). cbn. lia.
Qed.

(** Once a collection pass has started, the cache is no longer nil, whether
    the pass succeeded or not. *)
Lemma waitForPeers_pass_leaves_cache env ps :
  peers ps = None -> 0 <= containerCount ps ->
  exists partial, peers (waitForPeers env ps).1 = Some partial.
Proof.
  intros Hp Hc. unfold waitForPeers. rewrite Hp.
  replace (containerCount ps <? 0) with false by (symmetry; apply Z.ltb_ge; lia).
  cbn [setPeers containerCount].
  destruct (containerCount ps <=? 0); [by exists []|].
  cbn [subscribe containerCount].
  destruct (subscribeErr env); [by exists []|].
  destruct (waitLoop _ _ _ _) as [got r]. by exists got.
Qed.

(** C1, on the code: a first pass over two expected registrations that gets
    one record and then finds the channel closed returns the
    not-enough-peers error, but it has already stored the partial list, so
    the second call returns that one-element list with a nil error instead of
    the first call's result. No second subscription is opened. *)
Theorem waitForPeers_second_call_after_short_pass :
  let ps0 := NewPeerSubscriber (mkSyncClient 0 []) 2 in
  let first :=
    waitForPeers (mkWaitEnv None [RecvPeer (pr "a" 1 true); RecvClosed]) ps0 in
  first.2 = Returned (None, Some (ErrNotEnoughPeers 2 1)) /\
  forall env2,
    (waitForPeers env2 first.1).2 = Returned (Some [pr "a" 1 true], None) /\
    (waitForPeers env2 first.1).2 <> first.2 /\
    subscribeCalls (client (waitForPeers env2 first.1).1) = 1%nat.
Proof.
  cbn zeta. split; [reflexivity|]. intros env2.
  repeat split. discriminate.
Qed.

(** C2. During a collection pass that has received fewer registrations than
    expected: when the select takes the branch of the done context, the call
    returns the context's error; when it finds the channel closed, the call
    returns the not-enough-peers error that carries the expected and the
    received count; the two errors are different values. *)
Theorem waitForPeers_cancelled_or_closed
    (ps : PeerSubscriber) (records : list PeerRegistration)
    (rest : list selectEvent) (e : string) :
  peers ps = None ->
  len records < containerCount ps ->
  (waitForPeers (mkWaitEnv None (map RecvPeer records ++ CtxDone e :: rest)) ps).2
    = Returned (None, Some (ErrContext e)) /\
  (waitForPeers (mkWaitEnv None (map RecvPeer records ++ RecvClosed :: rest)) ps).2
    = Returned (None, Some (ErrNotEnoughPeers (containerCount ps) (len records)))
  /\
  ErrContext e <> ErrNotEnoughPeers (containerCount ps) (len records).
Proof.
  intros Hp Hlt. unfold len in Hlt.
  assert (Hloop : forall ev,
    waitLoop (Z.to_nat (containerCount ps)) (map RecvPeer records ++ ev :: rest)
             (containerCount ps) [] =
    waitLoop (S (Z.to_nat (containerCount ps) - S (length records)))
             (ev :: rest) (containerCount ps) records).
  { intros ev. rewrite waitLoop_recv by lia. cbn [app]. f_equal. lia. }
  unfold waitForPeers. rewrite Hp.
  replace (containerCount ps <? 0) with false by (symmetry; apply Z.ltb_ge; lia).
  cbn [setPeers containerCount].
  replace (containerCount ps <=? 0) with false by (symmetry; apply Z.leb_gt; lia).
  cbn [subscribe containerCount subscribeErr events].
  rewrite !Hloop. cbn [waitLoop snd]. repeat split. discriminate.
Qed.

Lemma waitForPeers_cancelled_or_closed_witness :
  let ps := NewPeerSubscriber (mkSyncClient 0 []) 3 in
  let records := [pr "a" 1 true] in
  (waitForPeers (mkWaitEnv None (map RecvPeer records
                                  ++ CtxDone "context canceled" :: [])) ps).2
    = Returned (None, Some (ErrContext "context canceled")) /\
  (waitForPeers (mkWaitEnv None (map RecvPeer records ++ RecvClosed :: [])) ps).2
    = Returned (None, Some (ErrNotEnoughPeers 3 1)) /\
  ErrContext "context canceled" <> ErrNotEnoughPeers 3 1.
Proof.
  intros ps records.
  apply (waitForPeers_cancelled_or_closed ps records [] "context canceled").
  - reflexivity.
  - reflexivity.
Defined.

(** ** registerAndWait *)

Lemma filter_notLocal (localID : peerID) (l : list PeerRegistration) :
  List.filter (notLocal localID) l =
  filter (fun p => ID (Info p) <> localID) l.
Proof.
  induction l as [|p l IH]; [reflexivity|].
  cbn [List.filter]. rewrite filter_cons, IH. unfold notLocal.
  destruct (String.eqb_spec (ID (Info p)) localID) as [Heq|Hne]; cbn [negb].
  - rewrite decide_False by (intros Hn; by apply Hn). reflexivity.
  - rewrite decide_True by done. reflexivity.
Qed.

Lemma filter_other_ids (x : peerID) (l : list PeerRegistration) :
  x ∉ ids (filter (fun p => ID (Info p) <> x) l).
Proof.
  unfold ids. intros (p & Hx & Hin)%list_elem_of_fmap.
  apply list_elem_of_filter in Hin as [Hne _]. by apply Hne.
Qed.

Lemma filter_absent_id (x : peerID) (l : list PeerRegistration) :
  x ∉ ids l -> filter (fun p => ID (Info p) <> x) l = l.
Proof.
  induction l as [|p l IH]; [done|]. cbn [ids map]. intros Hnin.
  apply not_elem_of_cons in Hnin as [Hne Hnin].
  rewrite filter_cons, decide_True by done. f_equal. by apply IH.
Qed.

(** Dropping the one record of an identity that occurs once shortens the
    list by one. *)
Lemma filter_one_id_length (x : peerID) (l : list PeerRegistration) :
  NoDup (ids l) -> x ∈ ids l ->
  S (length (filter (fun p => ID (Info p) <> x) l)) = length l.
Proof.
  induction l as [|p l IH]; cbn [ids map].
  - intros _ Hin. by apply elem_of_nil in Hin.
  - intros [Hp Hnd]%NoDup_cons Hin. rewrite filter_cons.
    destruct (decide (ID (Info p) <> x)) as [Hne|Heq].
    + cbn [length]. f_equal. apply IH; [done|].
      apply elem_of_cons in Hin as [Heq|Hin]; [by destruct Hne|done].
    + assert (ID (Info p) = x) as <- by (by destruct (decide (ID (Info p) = x))).
      rewrite filter_absent_id by done. reflexivity.
Qed.

(** C8. After a successful [registerAndWait] the stored list of all peers is
    the collected list without the records that carry the local identity. A
    fresh pass collects as many records as there are containers; when the
    collected identities are pairwise distinct and include the local one, the
    stored list is one shorter than the collected list and never holds the
    local node. *)
Theorem registerAndWait_filters_self
    (env : RegisterEnv) (s s' : SyncDiscovery) (ps ps' : PeerSubscriber) :
  registerAndWait env s ps = (s', ps', Returned None) ->
  exists received,
    peers ps' = Some received /\
    allPeers s' = filter (fun p => ID (Info p) <> hostID (h s)) received /\
    (hostID (h s) ∉ ids (allPeers s')) /\
    (peers ps = None -> len received = containerCount ps) /\
    (NoDup (ids received) -> hostID (h s) ∈ ids received ->
     len (allPeers s') = len received - 1).
Proof.
  unfold registerAndWait, register.
  destruct (publishErr env); [discriminate|].
  set (ps1 := mkPeerSubscriber _ _ _).
  destruct (waitForPeers (waitEnv env) ps1) as [ps2 r] eqn:Hwait.
  destruct r as [[[received|] [err|]]| |]; try discriminate.
  destruct (len received - 1 <? 0); [discriminate|].
  intros [= <- <-]. cbn [allPeers setAllPeers InfoFromHost ID].
  apply waitForPeers_success_cached in Hwait as [Hcache Hfresh].
  exists received. rewrite filter_notLocal.
  split; [done|]. split; [done|]. split; [apply filter_other_ids|]. split.
  - intros Hnil. apply Hfresh. exact Hnil.
  - intros Hnd Hin. pose proof (filter_one_id_length _ _ Hnd Hin) as Hlen.
    unfold len. lia.
Qed.

Lemma registerAndWait_filters_self_witness :
  let env := mkRegisterEnv None (mkWaitEnv None (map RecvPeer fiveNodes)) in
  let s := NewSyncDiscovery (mkHost "n3" [] true) 3 (TRandom (mkRandomTopology 2)) in
  let ps := NewPeerSubscriber (mkSyncClient 0 []) 5 in
  let '(s', ps', _) := registerAndWait env s ps in
  exists received,
    peers ps' = Some received /\
    allPeers s' = filter (fun p => ID (Info p) <> "n3") received /\
    ("n3" ∉ ids (allPeers s')) /\
    (peers ps = None -> len received = 5) /\
    (NoDup (ids received) -> "n3" ∈ ids received ->
     len (allPeers s') = len received - 1).
Proof.
  exact (registerAndWait_filters_self
           (mkRegisterEnv None (mkWaitEnv None (map RecvPeer fiveNodes)))
           (NewSyncDiscovery (mkHost "n3" [] true) 3 (TRandom (mkRandomTopology 2)))
           _
           (NewPeerSubscriber (mkSyncClient 0 []) 5) _ eq_refl).
Defined.

Example registerAndWait_five_nodes :
  let env := mkRegisterEnv None (mkWaitEnv None (map RecvPeer fiveNodes)) in
  let s := NewSyncDiscovery (mkHost "n3" [] true) 3 (TRandom (mkRandomTopology 2)) in
  let ps := NewPeerSubscriber (mkSyncClient 0 []) 5 in
  allPeers (registerAndWait env s ps).1.1 =
  [pr "n1" 1 true; pr "n2" 2 false; pr "n4" 4 false; pr "n5" 5 false].
Proof. reflexivity. Qed.

(** ** Connecting: empty selections and the connected set *)

(** C9. When the strategy selects no peer, [ConnectTopology] panics with
    "topology selected zero peers. so lonely!!!" before it takes the lock:
    nothing is dispatched and the state is unchanged; [ConnectingToPeers]
    does the same on an empty list. *)
Theorem empty_selection_is_fatal (s : SyncDiscovery) (indices : list nat) :
  SelectPeers (topology s) indices (hostID (h s)) (allPeers s) = Ok [] ->
  ConnectTopology None indices s = (s, ConnPanic lonely) /\
  ConnectingToPeers [] s = (s, ConnPanic lonely).
Proof.
  intros Hsel. unfold ConnectTopology, ConnectingToPeers. rewrite Hsel.
  split; reflexivity.
Qed.

Lemma empty_selection_is_fatal_witness :
  let s := NewSyncDiscovery (mkHost "me" [] true) 1 TSinglePublisher in
  ConnectTopology None [] s = (s, ConnPanic lonely) /\
  ConnectingToPeers [] s = (s, ConnPanic lonely).
Proof.
  intros s. apply (empty_selection_is_fatal s []). reflexivity.
Defined.

Lemma dispatchInv_refl m : dispatchInv m m [].
Proof.
  split; try done.
  - constructor.
  - intros p Hp. by apply elem_of_nil in Hp.
  - intros p Hp. by apply elem_of_nil in Hp.
  - intros id Hid. by left.
Qed.

Lemma dispatchInv_trans m1 m2 m3 new1 new2 :
  dispatchInv m1 m2 new1 -> dispatchInv m2 m3 new2 ->
  dispatchInv m1 m3 (new1 ++ new2).
Proof.
  intros [Hnd1 Hf1 Hr1 Hk1 Hd1] [Hnd2 Hf2 Hr2 Hk2 Hd2]. split.
  - unfold ids. rewrite map_app. apply NoDup_app. split; [done|]. split; [|done].
    intros id (p & -> & Hp)%list_elem_of_fmap (q & Hq & Hq')%list_elem_of_fmap.
    specialize (Hr1 _ Hp). specialize (Hf2 _ Hq'). rewrite <- Hq in Hf2.
    congruence.
  - intros p [Hp|Hp]%elem_of_app; [by apply Hf1|].
    specialize (Hf2 _ Hp). destruct (m1 !! ID (Info p)) as [v|] eqn:Hm; [|done].
    apply Hk1 in Hm. congruence.
  - intros p [Hp|Hp]%elem_of_app; [|by apply Hr2]. by apply Hk2, Hr1.
  - intros id v Hm. by apply Hk2, Hk1.
  - intros id Hid. unfold ids. rewrite map_app.
    destruct (Hd2 _ Hid) as [Hin|Hin].
    + destruct (Hd1 _ Hin) as [?|Hin1]; [by left|].
      right. apply elem_of_app. by left.
    + right. apply elem_of_app. by right.
Qed.

Lemma dispatchLoop_spec (selected : list PeerRegistration) :
  forall m tasks,
  exists new,
    (dispatchLoop selected m tasks).2 = tasks ++ new /\
    dispatchInv m (dispatchLoop selected m tasks).1 new.
Proof.
  induction selected as [|p selected IH]; intros m tasks; cbn [dispatchLoop].
  - exists []. split; [by rewrite app_nil_r | apply dispatchInv_refl].
  - destruct (m !! ID (Info p)) as [v|] eqn:Hm; [apply IH|].
    destruct (IH (<[ID (Info p) := p]> m) (tasks ++ [p])) as (new & Heq & Hinv).
    exists ([p] ++ new). split; [by rewrite Heq, <- app_assoc|].
    apply dispatchInv_trans with (<[ID (Info p) := p]> m); [|done].
    split.
    + cbn. apply NoDup_singleton.
    + intros q ->%list_elem_of_singleton. done.
    + intros q ->%list_elem_of_singleton. apply lookup_insert_eq.
    + intros id v Hid. rewrite lookup_insert_ne; [done|]. congruence.
    + intros id Hid. destruct (decide (ID (Info p) = id)) as [<-|Hne].
      * right. cbn. apply list_elem_of_singleton. done.
      * left. by rewrite lookup_insert_ne in Hid.
Qed.

Lemma doCall_spec (c : connectCall) (s : SyncDiscovery) :
  match (doCall c s).2 with
  | ConnDispatched tasks =>
      dispatchInv (connected s) (connected (doCall c s).1) tasks
  | _ => (doCall c s).1 = s
  end.
Proof.
  assert (Hloop : forall selected,
    let r := dispatchLoop selected (connected s) [] in
    dispatchInv (connected s) (connected (setConnected s r.1)) r.2).
  { intros selected.
    destruct (dispatchLoop_spec selected (connected s) []) as (new & Heq & Hinv).
    cbn zeta. rewrite Heq. exact Hinv. }
  destruct c as [ctxDone indices|selected]; cbn [doCall].
  - unfold ConnectTopology. destruct ctxDone; [reflexivity|].
    destruct (SelectPeers _ _ _ _) as [selected|]; [|reflexivity].
    destruct (len selected =? 0); [reflexivity|].
    specialize (Hloop selected). cbn zeta in Hloop.
    destruct (dispatchLoop selected (connected s) []). exact Hloop.
  - unfold ConnectingToPeers.
    destruct (len selected =? 0); [reflexivity|].
    specialize (Hloop selected). cbn zeta in Hloop.
    destruct (dispatchLoop selected (connected s) []). exact Hloop.
Qed.

Lemma runCalls_spec (cs : list connectCall) :
  forall s log,
  exists new,
    (runCalls cs s log).2 = log ++ new /\
    dispatchInv (connected s) (connected (runCalls cs s log).1) new.
Proof.
  induction cs as [|c cs IH]; intros s log; cbn [runCalls].
  - exists []. split; [by rewrite app_nil_r | apply dispatchInv_refl].
  - pose proof (doCall_spec c s) as Hc.
    destruct (doCall c s) as [s' [e|m|tasks]]; cbn [fst snd] in Hc.
    + subst s'. apply IH.
    + subst s'. exists []. split; [by rewrite app_nil_r | apply dispatchInv_refl].
    + destruct (IH s' (log ++ tasks)) as (new & Heq & Hinv).
      exists (tasks ++ new). split; [by rewrite Heq, <- app_assoc|].
      by apply dispatchInv_trans with (connected s').
Qed.

(** C4. Whatever sequence of [ConnectTopology] and [ConnectingToPeers] calls
    runs on a discovery service, with whatever peer sets: no two started
    attempts have the same peer identity; a peer is started only if it was
    absent from the connected set, and it is in the connected set as soon as
    the locked part that started it ends; entries of the connected set are
    never replaced. *)
Theorem connect_calls_dispatch_once
    (cs : list connectCall) (s : SyncDiscovery) :
  let s' := (runCalls cs s []).1 in
  let started := (runCalls cs s []).2 in
  NoDup (ids started) /\
  (forall p, p ∈ started ->
     connected s !! ID (Info p) = None /\
     connected s' !! ID (Info p) = Some p) /\
  (forall id v, connected s !! id = Some v -> connected s' !! id = Some v).
Proof.
  cbn zeta. destruct (runCalls_spec cs s []) as (new & Heq & Hinv).
  cbn [app] in Heq. rewrite Heq. destruct Hinv as [Hnd Hf Hr Hk _].
  split; [done|]. split; [|done]. intros p Hp. split; [by apply Hf | by apply Hr].
Qed.

(** Two overlapping calls: "b" is started once. *)
Example connect_overlapping_calls :
  let s := NewSyncDiscovery (mkHost "me" [] true) 1 TSinglePublisher in
  (runCalls [CallConnectingToPeers [pr "a" 1 true; pr "b" 2 false];
             CallConnectingToPeers [pr "b" 2 false; pr "c" 3 false; pr "c" 3 false]]
            s []).2
  = [pr "a" 1 true; pr "b" 2 false; pr "c" 3 false].
Proof. reflexivity. Qed.

(** ** connectWithRetry *)

Section ConnectWithRetry.
Variable connect : nat -> option string.
Variable s : SyncDiscovery.
Variable p : AddrInfo.

Let f := fun n : nat => (connect n, [Dial (ID p)]).
Let onRetry := fun (n : nat) (err : string) =>
  if networkIsSwarm (h s) then [ClearBackoff (ID p)] else [].

Lemma dials_app a b : dials (a ++ b) = (dials a + dials b)%nat.
Proof. unfold dials. by rewrite List.filter_app, length_app. Qed.

Lemma clears_app a b : clears (a ++ b) = (clears a + clears b)%nat.
Proof. unfold clears. by rewrite List.filter_app, length_app. Qed.

Lemma dials_failedAttempt : dials (failedAttempt s p) = 1%nat.
Proof. unfold failedAttempt. by destruct (networkIsSwarm (h s)). Qed.

Lemma clears_failedAttempt :
  clears (failedAttempt s p) = if networkIsSwarm (h s) then 1%nat else 0%nat.
Proof. unfold failedAttempt. by destruct (networkIsSwarm (h s)). Qed.

Lemma dials_repeatTrace k : dials (repeatTrace k (failedAttempt s p)) = k.
Proof.
  induction k as [|k IH]; [reflexivity|].
  cbn [repeatTrace]. by rewrite dials_app, dials_failedAttempt, IH.
Qed.

Lemma clears_repeatTrace k :
  clears (repeatTrace k (failedAttempt s p)) =
  if networkIsSwarm (h s) then k else 0%nat.
Proof.
  induction k as [|k IH]; [by destruct (networkIsSwarm (h s))|].
  cbn [repeatTrace]. rewrite clears_app, clears_failedAttempt, IH.
  by destruct (networkIsSwarm (h s)).
Qed.

Lemma retry_loop_dials todo :
  forall n log, (dials (retry_loop todo n f onRetry log).2 <= todo)%nat.
Proof.
  induction todo as [|todo IH]; intros n log; cbn [retry_loop]; [cbn; lia|].
  unfold f at 1. destruct (connect n) as [err|]; [|cbn; lia].
  specialize (IH (S n) (log ++ [err])).
  destruct (retry_loop todo (S n) f onRetry (log ++ [err])) as [r tr].
  cbn [snd] in *. rewrite !dials_app.
  replace (dials [Dial (ID p)]) with 1%nat by reflexivity.
  replace (dials (onRetry n err)) with 0%nat
    by (unfold onRetry; by destruct (networkIsSwarm (h s))).
  lia.
Qed.

Lemma retry_loop_step todo n log err :
  connect n = Some err ->
  retry_loop (S todo) n f onRetry log =
  ((retry_loop todo (S n) f onRetry (log ++ [err])).1,
   failedAttempt s p ++ (retry_loop todo (S n) f onRetry (log ++ [err])).2).
Proof.
  intros Hc. cbn [retry_loop]. unfold f at 1. rewrite Hc.
  destruct (retry_loop todo (S n) f onRetry (log ++ [err])) as [r tr].
  cbn [fst snd]. reflexivity.
Qed.

Lemma retry_loop_success k :
  forall todo n log,
    (k < todo)%nat ->
    (forall i, (i < k)%nat -> connect (n + i) <> None) ->
    connect (n + k) = None ->
    retry_loop todo n f onRetry log =
    (None, repeatTrace k (failedAttempt s p) ++ [Dial (ID p)]).
Proof.
  induction k as [|k IH]; intros todo n log Hlt Hfail Hok.
  - destruct todo as [|todo]; [lia|]. cbn [retry_loop repeatTrace app].
    unfold f at 1. rewrite Nat.add_0_r in Hok. by rewrite Hok.
  - destruct todo as [|todo]; [lia|].
    destruct (connect n) as [err|] eqn:Hn.
    2:{ exfalso. apply (Hfail 0%nat); [lia|]. by rewrite Nat.add_0_r. }
    rewrite (retry_loop_step _ _ _ _ Hn).
    rewrite (IH todo (S n) (log ++ [err])).
    + cbn [fst snd repeatTrace]. by rewrite <- app_assoc.
    + lia.
    + intros i Hi. replace (S n + i)%nat with (n + S i)%nat by lia.
      apply Hfail. lia.
    + by replace (S n + k)%nat with (n + S k)%nat by lia.
Qed.

Lemma retry_loop_exhausted todo :
  forall n log,
    (forall i, (i < todo)%nat -> connect (n + i) <> None) ->
    exists errs,
      length errs = todo /\
      retry_loop todo n f onRetry log =
      (Some (ErrRetry (log ++ errs)), repeatTrace todo (failedAttempt s p)).
Proof.
  induction todo as [|todo IH]; intros n log Hfail.
  - exists []. split; [done|]. cbn. by rewrite app_nil_r.
  - destruct (connect n) as [err|] eqn:Hn.
    2:{ exfalso. apply (Hfail 0%nat); [lia|]. by rewrite Nat.add_0_r. }
    rewrite (retry_loop_step _ _ _ _ Hn).
    destruct (IH (S n) (log ++ [err])) as (errs & Hlen & ->).
    { intros i Hi. replace (S n + i)%nat with (n + S i)%nat by lia.
      apply Hfail. lia. }
    exists (err :: errs). split; [cbn; lia|].
    cbn [fst snd repeatTrace]. by rewrite <- app_assoc.
Qed.
End ConnectWithRetry.

(** C3, as stated, fails: the callback clears the backoff entry only when the
    host's network is a [*swarm.Swarm]. On another network a dial that fails
    once and then succeeds returns no error, and no clear is invoked where
    the claim counts one. *)
Lemma connectWithRetry_no_clear_without_swarm :
  let r := connectWithRetry (failsFirst 1) notSwarmDiscovery (mkAddrInfo "a" []) in
  r.1 = None /\ r.2 = [Dial "a"; Dial "a"] /\ clears r.2 = 0%nat /\
  clears r.2 <> 1%nat.
Proof. cbn zeta. repeat split. discriminate. Qed.

(** C3, amended. For every host, peer address and sequence of dial outcomes,
    [connectWithRetry] dials at most 10 times. If the dial fails on the
    attempts 1 to [k] and succeeds on attempt [k+1], with [k+1] at most 10,
    it returns no error and the trace is: [k] failed attempts, then the
    successful dial, after which nothing is cleared. On a host whose network
    is a swarm each failed attempt is followed, before the next dial, by one
    clearing of that peer's backoff entry, so exactly [k] clearings occur; on
    another network none occurs. If all 10 attempts fail, the call returns
    the errors of the attempts, after 10 dials. *)
Theorem connectWithRetry_trace
    (connect : nat -> option string) (s : SyncDiscovery) (p : AddrInfo) :
  let r := connectWithRetry connect s p in
  (dials r.2 <= MaxConnectRetries)%nat /\
  (forall k,
     (S k <= MaxConnectRetries)%nat ->
     (forall i, (i < k)%nat -> connect i <> None) ->
     connect k = None ->
     r.1 = None /\
     r.2 = repeatTrace k (failedAttempt s p) ++ [Dial (ID p)] /\
     dials r.2 = S k /\
     clears r.2 = if networkIsSwarm (h s) then k else 0%nat) /\
  ((forall i, (i < MaxConnectRetries)%nat -> connect i <> None) ->
   (exists errs, length errs = MaxConnectRetries /\ r.1 = Some (ErrRetry errs)) /\
   r.2 = repeatTrace MaxConnectRetries (failedAttempt s p) /\
   dials r.2 = MaxConnectRetries).
Proof.
  cbn zeta. unfold connectWithRetry, retry_Do. split; [|split].
  - apply retry_loop_dials.
  - intros k Hk Hfail Hok.
    rewrite (retry_loop_success connect s p k MaxConnectRetries 0 []);
      [|lia|done|done].
    cbn [fst snd]. split; [done|]. split; [done|].
    rewrite dials_app, clears_app, dials_repeatTrace, clears_repeatTrace.
    split; [cbn; lia|]. destruct (networkIsSwarm (h s)); cbn; lia.
  - intros Hfail.
    destruct (retry_loop_exhausted connect s p MaxConnectRetries 0 [] Hfail)
      as (errs & Hlen & ->).
    cbn [fst snd app]. split; [by exists errs|]. split; [done|].
    apply dials_repeatTrace.
Qed.

(** Three failures, then success on the fourth attempt: no error and three
    clearings on a swarm. *)
Lemma connectWithRetry_trace_witness :
  let r := connectWithRetry (failsFirst 3) swarmDiscovery (mkAddrInfo "a" []) in
  r.1 = None /\
  r.2 = repeatTrace 3 (failedAttempt swarmDiscovery (mkAddrInfo "a" []))
        ++ [Dial "a"] /\
  dials r.2 = 4%nat /\
  clears r.2 = 3%nat.
Proof.
  intros r.
  apply (proj1 (proj2 (connectWithRetry_trace (failsFirst 3) swarmDiscovery
                         (mkAddrInfo "a" []))) 3%nat).
  - unfold MaxConnectRetries. lia.
  - intros i Hi. destruct i as [|[|[|i]]]; [discriminate..|lia].
  - reflexivity.
Defined.

(** Ten failures: the call gives up after ten dials. *)
Example connectWithRetry_exhausted :
  let r := connectWithRetry (failsFirst 10) swarmDiscovery (mkAddrInfo "a" []) in
  r.1 = Some (ErrRetry (repeat "dial backoff" 10)) /\ dials r.2 = 10%nat.
Proof. split; reflexivity. Qed.

(** * Further properties of the code *)

(** ** The random strategies *)

(** The body shared by [SelectPeers] and [SelectNPeers]: with a count that is
    not negative and a permutation of the indices, it draws
    min(count, |remote|) entries without replacement. *)
Lemma randomDraw (n : Z) (indices : list nat) (local : peerID)
    (remote : list PeerRegistration) :
  indices ≡ₚ seq 0 (length remote) ->
  0 <= n ->
  exists out rest,
    RandomTopology_SelectNPeers n indices local remote = Ok out /\
    len out = Z.min n (len remote) /\
    out ++ rest ≡ₚ remote.
Proof.
  intros Hperm Hn. unfold RandomTopology_SelectNPeers.
  destruct (Z.eqb_spec (len remote) 0) as [Hr|Hr]; cbn [orb].
  { exists [], remote. repeat split; [unfold len in *; cbn; lia | done]. }
  destruct (Z.eqb_spec n 0) as [Hz|Hz].
  { exists [], remote. repeat split; [unfold len in *; cbn; lia | done]. }
  set (m := if n >? len remote then len remote else n).
  assert (Hm : m = Z.min n (len remote)).
  { unfold m. destruct (Z.gtb_spec n (len remote)); lia. }
  assert (Hm0 : 0 <= m <= len remote) by (unfold len in *; lia).
  replace (m <? 0) with false by (symmetry; apply Z.ltb_ge; lia).
  assert (Hlen : len indices = len remote).
  { unfold len. by rewrite Hperm, length_seq. }
  replace (len indices <? m) with false by (symmetry; apply Z.ltb_ge; lia).
  destruct (pickIndices_take_perm remote indices (Z.to_nat m) Hperm)
    as (out & rest & Hout & Hlo & Hpr); [unfold len in *; lia|].
  exists out, rest. split; [done|]. split; [unfold len in *; lia | done].
Qed.

Lemma RandomTopology_SelectPeers_as_SelectNPeers t indices local remote :
  RandomTopology_SelectPeers t indices local remote =
  RandomTopology_SelectNPeers (Count t) indices local remote.
Proof. reflexivity. Qed.

(** X1. [SelectNPeers] with a count [n >= 0] returns min(n, |remote|) peers
    drawn from [remote] without replacement, whatever permutation
    [rand.Perm] gives; the receiver's own [Count] plays no part. *)
Theorem RandomTopology_SelectNPeers_draws
    (n : Z) (indices : list nat) (local : peerID)
    (remote : list PeerRegistration) :
  indices ≡ₚ seq 0 (length remote) ->
  0 <= n ->
  exists out rest,
    RandomTopology_SelectNPeers n indices local remote = Ok out /\
    len out = Z.min n (len remote) /\
    out ++ rest ≡ₚ remote.
Proof. apply randomDraw. Qed.

Lemma RandomTopology_SelectNPeers_draws_witness :
  exists out rest,
    RandomTopology_SelectNPeers 1 [1; 0]%nat "me"
      [pr "a" 5 false; pr "b" 7 false] = Ok out /\
    len out = Z.min 1 2 /\
    out ++ rest ≡ₚ [pr "a" 5 false; pr "b" 7 false].
Proof.
  apply (RandomTopology_SelectNPeers_draws 1 [1; 0]%nat "me"
           [pr "a" 5 false; pr "b" 7 false]).
  - cbn. apply perm_swap.
  - lia.
Defined.

(** X2. A negative count over a non-empty remote list is a panic of
    [make] ("makeslice: len out of range"), in [SelectPeers] and in
    [SelectNPeers] alike; it is not treated like a count of 0. *)
Theorem RandomTopology_negative_count_panics
    (n : Z) (indices : list nat) (local : peerID)
    (remote : list PeerRegistration) :
  n < 0 -> remote <> [] ->
  RandomTopology_SelectPeers (mkRandomTopology n) indices local remote
    = Panic "makeslice: len out of range" /\
  RandomTopology_SelectNPeers n indices local remote
    = Panic "makeslice: len out of range".
Proof.
  intros Hn Hne. rewrite RandomTopology_SelectPeers_as_SelectNPeers.
  cbn [Count]. split; unfold RandomTopology_SelectNPeers.
  all: destruct remote as [|p remote]; [done|].
  all: replace (len (p :: remote) =? 0) with false
         by (symmetry; apply Z.eqb_neq; unfold len; cbn [length]; lia).
  all: replace (n =? 0) with false by (symmetry; apply Z.eqb_neq; lia).
  all: cbn [orb].
  all: replace (n >? len (p :: remote)) with false
         by (symmetry; rewrite Z.gtb_ltb; apply Z.ltb_ge; unfold len; lia).
  all: by replace (n <? 0) with true by (symmetry; apply Z.ltb_lt; lia).
Qed.

Lemma RandomTopology_negative_count_panics_witness :
  RandomTopology_SelectPeers (mkRandomTopology (-1)) [0%nat] "me" [pr "a" 1 false]
    = Panic "makeslice: len out of range" /\
  RandomTopology_SelectNPeers (-1) [0%nat] "me" [pr "a" 1 false]
    = Panic "makeslice: len out of range".
Proof.
  apply (RandomTopology_negative_count_panics (-1) [0%nat] "me" [pr "a" 1 false]).
  - lia.
  - discriminate.
Defined.

Lemma publishers_spec (l : list PeerRegistration) (p : PeerRegistration) :
  p ∈ publishers l <-> p ∈ l /\ IsPublisher p = true.
Proof.
  unfold publishers. rewrite !list_elem_of_In. apply List.filter_In.
Qed.

(** X3. With [PublishersOnly] set, [RandomHonestTopology.SelectPeers] returns
    min(count, number of publishers) peers, each a publisher of [remote],
    drawn without replacement from the publishers; in particular a remote
    list without publishers gives the empty subset, not an error. The
    permutation is over the publishers, since the draw runs on the filtered
    list. *)
Theorem RandomHonestTopology_publishers_only
    (t : RandomHonestTopology) (indices : list nat) (local : peerID)
    (remote : list PeerRegistration) :
  PublishersOnly t = true ->
  indices ≡ₚ seq 0 (length (publishers remote)) ->
  0 <= RHCount t ->
  exists out rest,
    RandomHonestTopology_SelectPeers t indices local remote = Ok out /\
    len out = Z.min (RHCount t) (len (publishers remote)) /\
    out ++ rest ≡ₚ publishers remote /\
    Forall (fun p => p ∈ remote /\ IsPublisher p = true) out.
Proof.
  intros Hpub Hperm Hcount. unfold RandomHonestTopology_SelectPeers.
  rewrite Hpub. cbn [negb orb].
  change (List.filter (fun p => IsPublisher p) remote) with (publishers remote).
  destruct (Z.eqb_spec (len remote) 0) as [Hr|Hr].
  - assert (remote = []) as -> by (apply nil_length_inv; unfold len in Hr; lia).
    exists [], []. split; [reflexivity|]. split; [unfold len; cbn; lia|].
    split; [reflexivity | constructor].
  - rewrite RandomTopology_SelectPeers_as_SelectNPeers. cbn [Count].
    destruct (randomDraw (RHCount t) indices local (publishers remote) Hperm Hcount)
      as (out & rest & Hout & Hlen & Hpr).
    exists out, rest. split; [done|]. split; [done|]. split; [done|].
    apply Forall_forall. intros p Hp. apply publishers_spec.
    rewrite <- Hpr. apply elem_of_app. by left.
Qed.

Lemma RandomHonestTopology_publishers_only_witness :
  exists out rest,
    RandomHonestTopology_SelectPeers (mkRandomHonestTopology 5 true) [0%nat] "me"
      [pr "a" 5 false; pr "b" 7 true] = Ok out /\
    len out = Z.min 5 (len (publishers [pr "a" 5 false; pr "b" 7 true])) /\
    out ++ rest ≡ₚ publishers [pr "a" 5 false; pr "b" 7 true] /\
    Forall (fun p => p ∈ [pr "a" 5 false; pr "b" 7 true] /\ IsPublisher p = true)
           out.
Proof.
  apply (RandomHonestTopology_publishers_only (mkRandomHonestTopology 5 true)
           [0%nat] "me" [pr "a" 5 false; pr "b" 7 true]).
  - reflexivity.
  - reflexivity.
  - cbn. lia.
Defined.

(** X4. Without [PublishersOnly] the filter lets every peer through:
    [RandomHonestTopology.SelectPeers] is [RandomTopology.SelectPeers] with
    the same count on the same list, for every input. *)
Theorem RandomHonestTopology_all_peers
    (count : Z) (indices : list nat) (local : peerID)
    (remote : list PeerRegistration) :
  RandomHonestTopology_SelectPeers (mkRandomHonestTopology count false)
    indices local remote =
  RandomTopology_SelectPeers (mkRandomTopology count) indices local remote.
Proof.
  unfold RandomHonestTopology_SelectPeers. cbn [PublishersOnly RHCount negb orb].
  assert (Hall : List.filter (fun _ : PeerRegistration => true) remote = remote).
  { induction remote as [|p l IH]; [done|]. cbn. by rewrite IH. }
  rewrite Hall. unfold RandomTopology_SelectPeers.
  by destruct (len remote =? 0).
Qed.

(** ** The single-publisher strategy *)

(** The scaled sequence number is even, so it never equals the sentinel -1,
    also when the multiplication wraps around. *)
Lemma wrap64_scaled_not_sentinel (z : Z) : wrap64 (z * 1000000) <> -1.
Proof.
  unfold wrap64. intros H.
  pose proof (Z.div_mod (z * 1000000 + 2 ^ 63) (2 ^ 64)) as Hdm.
  assert (Hm : (z * 1000000 + 2 ^ 63) mod 2 ^ 64 = 2 ^ 63 - 1) by lia.
  rewrite Hm in Hdm.
  set (q := (z * 1000000 + 2 ^ 63) / 2 ^ 64) in *.
  assert (Hq : z * 1000000 + 2 ^ 63 = 2 ^ 64 * q + (2 ^ 63 - 1)) by (apply Hdm; lia).
  change (2 ^ 64) with 18446744073709551616 in Hq.
  change (2 ^ 63) with 9223372036854775808 in Hq.
  lia.
Qed.

Lemma selectLoop_picks_publisher (todo : list PeerRegistration) :
  forall pre lowest lowestp,
    (lowest = -1 /\ noPublisher pre) \/
    (lowest <> -1 /\ lowestp ∈ pre /\ IsPublisher lowestp = true) ->
    let r := selectLoop todo lowest lowestp in
    (r.1 = -1 /\ noPublisher (pre ++ todo)) \/
    (r.1 <> -1 /\ r.2 ∈ pre ++ todo /\ IsPublisher r.2 = true).
Proof.
  induction todo as [|q todo IH]; intros pre lowest lowestp Hinv.
  - cbn. by rewrite app_nil_r.
  - cbn [selectLoop].
    replace (pre ++ q :: todo) with ((pre ++ [q]) ++ todo)
      by (by rewrite <- app_assoc).
    assert (Hnew : (wrap64 (NodeTypeSeq q * 1000000) <> -1 /\
                    q ∈ pre ++ [q] /\ IsPublisher q = true) \/
                   IsPublisher q = false).
    { destruct (IsPublisher q); [left|by right].
      split; [apply wrap64_scaled_not_sentinel|]. split; [|done].
      apply elem_of_app. right. by apply list_elem_of_singleton. }
    assert (Hold : IsPublisher q = false \/ lowest <> -1 ->
                   (lowest = -1 /\ noPublisher (pre ++ [q])) \/
                   (lowest <> -1 /\ lowestp ∈ pre ++ [q] /\
                    IsPublisher lowestp = true)).
    { intros Hq. destruct Hinv as [[-> Hnone]|(Hne & Hin & Hp)].
      - destruct Hq as [Hq|Hq]; [|done]. left. split; [done|].
        apply Forall_app. split; [done|]. by constructor.
      - right. split; [done|]. split; [|done]. apply elem_of_app. by left. }
    destruct (IsPublisher q) eqn:Hpub.
    + destruct Hnew as [Hnew|?]; [|done].
      destruct ((lowest <? 0) || _) eqn:Hcmp.
      * apply IH. right. destruct Hnew as (H1 & H2 & _). by rewrite Hpub.
      * apply IH, Hold. right. intros ->. discriminate.
    + apply IH, Hold. by left.
Qed.

(** X5. For every remote list, whatever the sequence numbers (negative ones
    and ones whose scaling overflows included):
    [SinglePublisherTopology.SelectPeers] returns the empty subset exactly
    when the list has no publisher, and otherwise one element, which is a
    publisher of the list. It never returns a non-publisher and never more
    than one peer. *)
Theorem SinglePublisherTopology_selects_a_publisher
    (local : peerID) (remote : list PeerRegistration) :
  (noPublisher remote /\ SinglePublisherTopology_SelectPeers local remote = [])
  \/
  (exists p, p ∈ remote /\ IsPublisher p = true /\
             SinglePublisherTopology_SelectPeers local remote = [p]).
Proof.
  pose proof (selectLoop_picks_publisher remote [] (-1) zeroPeerRegistration) as H.
  cbn zeta in H. cbn [app] in H.
  unfold SinglePublisherTopology_SelectPeers, selectSinglePublisher.
  destruct (selectLoop remote (-1) zeroPeerRegistration) as [lowest lowestp].
  cbn [fst snd] in H.
  destruct H as [[-> Hnone]|(Hne & Hin & Hp)].
  - left. split; [reflexivity | constructor].
  - left. by split.
  - right. exists lowestp. split; [done|]. split; [done|].
    by replace (lowest =? -1) with false by (symmetry; by apply Z.eqb_neq).
Qed.

Lemma selectLoop_skips_others (l : list PeerRegistration) :
  forall lowest lowestp,
    selectLoop (publishers l) lowest lowestp = selectLoop l lowest lowestp.
Proof.
  induction l as [|q l IH]; intros lowest lowestp; [reflexivity|].
  unfold publishers in *. cbn [List.filter selectLoop].
  destruct (IsPublisher q) eqn:Hq; [|apply IH].
  cbn [selectLoop]. rewrite Hq. destruct (_ || _); apply IH.
Qed.

(** X6. The peers that are not publishers, and the local identity, have no
    influence on [SinglePublisherTopology.SelectPeers]: the result over a
    list is the result over its publishers alone. *)
Theorem SinglePublisherTopology_ignores_non_publishers
    (local local' : peerID) (remote : list PeerRegistration) :
  SinglePublisherTopology_SelectPeers local remote =
  SinglePublisherTopology_SelectPeers local' (publishers remote).
Proof.
  unfold SinglePublisherTopology_SelectPeers, selectSinglePublisher.
  by rewrite selectLoop_skips_others.
Qed.

(** ** The fixed strategy *)

Lemma Split_dash_length (s : string) :
  length (Split_dash s) = S (countDash s).
Proof.
  induction s as [|c s IH]; [reflexivity|]. cbn [Split_dash countDash].
  destruct (Ascii.eqb c "-"); cbn [length]; [by rewrite IH|].
  destruct (Split_dash s); cbn [length] in *; lia.
Qed.

Lemma Split_dash_pieces (s : string) :
  Forall (fun piece => countDash piece = 0%nat) (Split_dash s).
Proof.
  induction s as [|c s IH]; cbn [Split_dash].
  - by constructor.
  - destruct (Ascii.eqb c "-") eqn:Hc; [by constructor|].
    destruct (Split_dash s) as [|hd tl].
    + constructor; [|done]. cbn. by rewrite Hc.
    + apply Forall_cons in IH as [Hhd Htl]. constructor; [|done].
      cbn. by rewrite Hc.
Qed.

Lemma firstField_no_dash (c : string) : countDash (firstField c) = 0%nat.
Proof.
  unfold firstField. pose proof (Split_dash_pieces c) as H.
  destruct (Split_dash c); [reflexivity|]. by apply Forall_cons in H as [? _].
Qed.

Lemma Itoa_negative (z : Z) : z < 0 -> (1 <= countDash (Itoa z))%nat.
Proof.
  intros Hz. destruct z as [|q|q]; [lia..|].
  unfold Itoa. cbn. lia.
Qed.

Lemma wellFormed_two_dashes (conn : string) :
  wellFormed conn <-> countDash conn = 2%nat.
Proof. unfold wellFormed. rewrite Split_dash_length. lia. Qed.

(** X7. The field check of [FixedTopology] only counts dashes: over a
    non-empty remote list a specifier is accepted exactly when it holds two
    dashes, so empty fields pass (["--"] is accepted) and a fourth field is
    as fatal as a missing one. *)
Theorem FixedTopology_accepts_two_dashes
    (conn : string) (local : peerID) (remote : list PeerRegistration) :
  remote <> [] ->
  (countDash conn = 2%nat ->
   exists out, FixedTopology_SelectPeers (fixedOf [conn]) local remote = Ok out)
  /\
  (countDash conn <> 2%nat ->
   FixedTopology_SelectPeers (fixedOf [conn]) local remote
     = Panic "Badly formatted topology file").
Proof.
  intros Hne. unfold FixedTopology_SelectPeers, fixedOf; cbn [def Connections].
  destruct remote as [|p remote]; [done|].
  replace (len (p :: remote) =? 0) with false
    by (symmetry; apply Z.eqb_neq; unfold len; cbn [length]; lia).
  split; intros Hd.
  - rewrite fixedLoop_wellFormed; [by eexists|].
    constructor; [by apply wellFormed_two_dashes | constructor].
  - apply fixedLoop_malformed. apply Exists_cons_hd.
    by rewrite wellFormed_two_dashes.
Qed.

Lemma FixedTopology_accepts_two_dashes_witness :
  (exists out, FixedTopology_SelectPeers (fixedOf ["--"]) "me" [pr "a" 5 false]
               = Ok out) /\
  FixedTopology_SelectPeers (fixedOf ["5-x-y-z"]) "me" [pr "a" 5 false]
    = Panic "Badly formatted topology file".
Proof.
  split.
  - apply (FixedTopology_accepts_two_dashes "--" "me" [pr "a" 5 false]);
      [discriminate | reflexivity].
  - apply (FixedTopology_accepts_two_dashes "5-x-y-z" "me" [pr "a" 5 false]);
      [discriminate | cbn; lia].
Defined.

(** What an [Ok] result of the loop holds: what was there before, and peers
    of [remote] matched by a well-formed specifier. *)
Lemma fixedLoop_sound (conns : list string) :
  forall remote out0 out,
    fixedLoop conns remote out0 = Ok out ->
    Forall wellFormed conns /\
    forall p, p ∈ out ->
      p ∈ out0 \/
      (p ∈ remote /\ exists c, c ∈ conns /\ Itoa (NodeTypeSeq p) = firstField c).
Proof.
  induction conns as [|c conns IH]; intros remote out0 out; cbn [fixedLoop].
  - intros [= <-]. split; [constructor|]. intros p Hp. by left.
  - destruct (Nat.eqb_spec (length (Split_dash c)) 3) as [Hc|Hc];
      cbn [negb]; [|discriminate].
    intros H. apply IH in H as [Hwf Hout]. split; [by constructor|].
    intros p Hp. destruct (Hout p Hp) as [Hin|(Hin & c' & Hc' & Hm)].
    + apply elem_of_app in Hin as [Hin|Hin]; [by left|]. right.
      rewrite matchingPeers_filter in Hin.
      apply list_elem_of_filter in Hin as [Hm Hin].
      split; [done|]. exists c. split; [by left | done].
    + right. split; [done|]. exists c'. split; [by right | done].
Qed.

Lemma FixedTopology_result_sound_aux
    (t : FixedTopology) (local : peerID) (remote out : list PeerRegistration) :
  FixedTopology_SelectPeers t local remote = Ok out ->
  forall p, p ∈ out ->
    p ∈ remote /\
    exists d c, def t = Some d /\ c ∈ Connections d /\
                Itoa (NodeTypeSeq p) = firstField c.
Proof.
  unfold FixedTopology_SelectPeers. destruct (len remote =? 0).
  - intros [= <-] p Hp. by apply elem_of_nil in Hp.
  - destruct (def t) as [d|]; [|discriminate].
    intros H p Hp. apply fixedLoop_sound in H as [_ H].
    destruct (H p Hp) as [Hin|(Hin & c & Hc & Hm)];
      [by apply elem_of_nil in Hin|].
    split; [done|]. by exists d, c.
Qed.

(** X8. Whenever [FixedTopology.SelectPeers] returns normally, every
    returned peer is a peer of [remote] whose sequence number prints as the
    first field of one of the specifiers: nothing is invented, and the
    local identity plays no part. *)
Theorem FixedTopology_result_sound
    (t : FixedTopology) (local : peerID) (remote out : list PeerRegistration) :
  FixedTopology_SelectPeers t local remote = Ok out ->
  forall p, p ∈ out ->
    p ∈ remote /\
    exists d c, def t = Some d /\ c ∈ Connections d /\
                Itoa (NodeTypeSeq p) = firstField c.
Proof. apply FixedTopology_result_sound_aux. Qed.

Lemma FixedTopology_result_sound_witness :
  pr "a" 5 false ∈ [pr "a" 5 false; pr "b" 7 false] /\
  exists d c, def (fixedOf ["5-x-y"]) = Some d /\ c ∈ Connections d /\
              Itoa (NodeTypeSeq (pr "a" 5 false)) = firstField c.
Proof.
  apply (FixedTopology_result_sound (fixedOf ["5-x-y"]) "me"
           [pr "a" 5 false; pr "b" 7 false] [pr "a" 5 false]).
  - reflexivity.
  - left.
Defined.

(** X9. A peer with a negative sequence number is never selected by
    [FixedTopology]: its number prints with a leading dash, and a field cut
    out at the dashes holds none. *)
Theorem FixedTopology_never_selects_negative_seq
    (t : FixedTopology) (local : peerID) (remote out : list PeerRegistration) :
  FixedTopology_SelectPeers t local remote = Ok out ->
  Forall (fun p => 0 <= NodeTypeSeq p) out.
Proof.
  intros H. apply Forall_forall. intros p Hp.
  unfold FixedTopology_SelectPeers in H. destruct (len remote =? 0).
  { injection H as <-. by apply elem_of_nil in Hp. }
  destruct (def t) as [d|]; [|discriminate].
  apply fixedLoop_sound in H as [_ H].
  destruct (H p Hp) as [Hin|(_ & c & _ & Hm)]; [by apply elem_of_nil in Hin|].
  destruct (Z.le_gt_cases 0 (NodeTypeSeq p)) as [|Hneg]; [done|].
  apply Itoa_negative in Hneg. rewrite Hm, firstField_no_dash in Hneg. lia.
Qed.

Lemma FixedTopology_never_selects_negative_seq_witness :
  Forall (fun p => 0 <= NodeTypeSeq p) [pr "b" 7 false].
Proof.
  apply (FixedTopology_never_selects_negative_seq (fixedOf ["7-x-y"; "-7-x"]) "me"
           [pr "a" (-7) false; pr "b" 7 false] [pr "b" 7 false]).
  reflexivity.
Defined.

(** X10. For a non-empty remote list and well-formed specifiers the result
    is built specifier by specifier: the selection for two lists of
    specifiers in a row is the selection for the first followed by the
    selection for the second, so a repeated specifier repeats its peers. *)
Theorem FixedTopology_SelectPeers_app
    (conns1 conns2 : list string) (local : peerID)
    (remote : list PeerRegistration) :
  remote <> [] ->
  Forall wellFormed conns1 -> Forall wellFormed conns2 ->
  exists out1 out2,
    FixedTopology_SelectPeers (fixedOf conns1) local remote = Ok out1 /\
    FixedTopology_SelectPeers (fixedOf conns2) local remote = Ok out2 /\
    FixedTopology_SelectPeers (fixedOf (conns1 ++ conns2)) local remote
      = Ok (out1 ++ out2).
Proof.
  intros Hne Hwf1 Hwf2.
  unfold FixedTopology_SelectPeers, fixedOf; cbn [def Connections].
  destruct remote as [|p remote]; [done|].
  replace (len (p :: remote) =? 0) with false
    by (symmetry; apply Z.eqb_neq; unfold len; cbn [length]; lia).
  rewrite !fixedLoop_wellFormed by (try apply Forall_app; done).
  eexists _, _. split; [reflexivity|]. split; [reflexivity|].
  cbn [app]. by rewrite flat_map_app.
Qed.

Lemma FixedTopology_SelectPeers_app_witness :
  exists out1 out2,
    FixedTopology_SelectPeers (fixedOf ["5-x-y"]) "me"
      [pr "a" 5 false; pr "b" 7 false] = Ok out1 /\
    FixedTopology_SelectPeers (fixedOf ["5-u-v"; "7--"]) "me"
      [pr "a" 5 false; pr "b" 7 false] = Ok out2 /\
    FixedTopology_SelectPeers (fixedOf (["5-x-y"] ++ ["5-u-v"; "7--"])) "me"
      [pr "a" 5 false; pr "b" 7 false] = Ok (out1 ++ out2).
Proof.
  apply (FixedTopology_SelectPeers_app ["5-x-y"] ["5-u-v"; "7--"] "me"
           [pr "a" 5 false; pr "b" 7 false]).
  - discriminate.
  - repeat constructor.
  - repeat constructor.
Defined.

(** X11. The second and third field of a specifier are never read: two
    well-formed specifier lists whose first fields agree position by
    position select the same peers. *)
Theorem FixedTopology_ignores_other_fields
    (conns1 conns2 : list string) (local : peerID)
    (remote : list PeerRegistration) :
  Forall wellFormed conns1 -> Forall wellFormed conns2 ->
  map firstField conns1 = map firstField conns2 ->
  FixedTopology_SelectPeers (fixedOf conns1) local remote =
  FixedTopology_SelectPeers (fixedOf conns2) local remote.
Proof.
  intros Hwf1 Hwf2 Hfields.
  unfold FixedTopology_SelectPeers, fixedOf; cbn [def Connections].
  destruct (len remote =? 0); [reflexivity|].
  rewrite !fixedLoop_wellFormed by done. f_equal. f_equal.
  clear Hwf1 Hwf2. revert conns2 Hfields.
  induction conns1 as [|c1 conns1 IH]; intros [|c2 conns2]; cbn [map flat_map];
    try discriminate; [reflexivity|].
  intros [= Hc Hrest]. rewrite Hc. f_equal. by apply IH.
Qed.

Lemma FixedTopology_ignores_other_fields_witness :
  FixedTopology_SelectPeers (fixedOf ["5-x-y"]) "me" [pr "a" 5 false] =
  FixedTopology_SelectPeers (fixedOf ["5--"]) "me" [pr "a" 5 false].
Proof.
  apply (FixedTopology_ignores_other_fields ["5-x-y"] ["5--"] "me"
           [pr "a" 5 false]).
  - repeat constructor.
  - repeat constructor.
  - reflexivity.
Defined.

(** ** More on the peer subscriber *)

(** X12. A fresh pass that expects [N > 0] registrations and is offered at
    least [N] returns the first [N] in arrival order with a nil error,
    whatever follows them on the channel or the context; it caches that list
    and has opened exactly one subscription. *)
Theorem waitForPeers_collects_in_arrival_order
    (ps : PeerSubscriber) (records : list PeerRegistration)
    (rest : list selectEvent) :
  peers ps = None ->
  0 < containerCount ps ->
  len records = containerCount ps ->
  let r := waitForPeers (mkWaitEnv None (map RecvPeer records ++ rest)) ps in
  r.2 = Returned (Some records, None) /\
  peers r.1 = Some records /\
  subscribeCalls (client r.1) = S (subscribeCalls (client ps)).
Proof.
  intros Hp Hpos Hlen. unfold len in Hlen. cbn zeta. unfold waitForPeers.
  rewrite Hp.
  replace (containerCount ps <? 0) with false by (symmetry; apply Z.ltb_ge; lia).
  cbn [setPeers containerCount].
  replace (containerCount ps <=? 0) with false by (symmetry; apply Z.leb_gt; lia).
  unfold subscribe, setPeers.
  cbn [containerCount subscribeErr events peers client].
  rewrite waitLoop_recv by lia.
  replace (Z.to_nat (containerCount ps) - length records)%nat with 0%nat by lia.
  cbn [waitLoop app fst snd peers client subscribeCalls]. done.
Qed.

Lemma waitForPeers_collects_in_arrival_order_witness :
  let ps := NewPeerSubscriber (mkSyncClient 0 []) 2 in
  let records := [pr "b" 2 false; pr "a" 1 true] in
  let r := waitForPeers
             (mkWaitEnv None (map RecvPeer records
                              ++ [CtxDone "context canceled"])) ps in
  r.2 = Returned (Some records, None) /\
  peers r.1 = Some records /\
  subscribeCalls (client r.1) = 1%nat.
Proof.
  intros ps records.
  apply (waitForPeers_collects_in_arrival_order ps records
           [CtxDone "context canceled"]); reflexivity.
Defined.

(** X13. On a subscriber built for a container count that is not positive,
    a first [waitForPeers] panics ([make] on a negative capacity,
    [rand.Intn] on 0) before it subscribes. *)
Theorem waitForPeers_nonpositive_count_panics
    (env : WaitEnv) (ps : PeerSubscriber) :
  peers ps = None ->
  containerCount ps <= 0 ->
  (exists msg, (waitForPeers env ps).2 = Panicked msg) /\
  subscribeCalls (client (waitForPeers env ps).1) = subscribeCalls (client ps).
Proof.
  intros Hp Hc. unfold waitForPeers. rewrite Hp.
  destruct (containerCount ps <? 0); [split; [by eexists | done]|].
  cbn [setPeers containerCount].
  replace (containerCount ps <=? 0) with true by (symmetry; apply Z.leb_le; lia).
  split; [by eexists | done].
Qed.

Lemma waitForPeers_nonpositive_count_panics_witness :
  let ps := NewPeerSubscriber (mkSyncClient 0 []) 0 in
  let env := mkWaitEnv None [] in
  (exists msg, (waitForPeers env ps).2 = Panicked msg) /\
  subscribeCalls (client (waitForPeers env ps).1) = 0%nat.
Proof.
  intros ps env. apply (waitForPeers_nonpositive_count_panics env ps).
  - reflexivity.
  - cbn. lia.
Defined.

Lemma runWaits_cached (envs : list WaitEnv) (ps : PeerSubscriber) l :
  peers ps = Some l -> runWaits envs ps = ps.
Proof.
  intros Hp. induction envs as [|env envs IH]; [reflexivity|].
  cbn [runWaits]. by rewrite (waitForPeers_cached env ps l Hp).
Qed.

(** X14. However many times [waitForPeers] is called on a subscriber, and
    however the calls end, at most one subscription to the registration
    topic is ever opened. *)
Theorem waitForPeers_one_subscription_overall
    (envs : list WaitEnv) (ps : PeerSubscriber) :
  (subscribeCalls (client (runWaits envs ps))
   <= S (subscribeCalls (client ps)))%nat.
Proof.
  destruct envs as [|env envs]; [cbn; lia|]. cbn [runWaits].
  pose proof (waitForPeers_subscribes_at_most_once env ps) as Hone.
  destruct (peers ps) as [l|] eqn:Hp.
  { rewrite (waitForPeers_cached env ps l Hp).
    rewrite (runWaits_cached envs ps l Hp). lia. }
  destruct (Z.lt_ge_cases (containerCount ps) 0) as [Hneg|Hge].
  - unfold waitForPeers in *. rewrite Hp in *.
    replace (containerCount ps <? 0) with true in *
      by (symmetry; apply Z.ltb_lt; lia).
    cbn. lia.
  - destruct (waitForPeers_pass_leaves_cache env ps Hp Hge) as (partial & Hc).
    destruct (waitForPeers env ps) as [ps' r]. cbn [fst] in *.
    destruct r; [|done..]. by rewrite (runWaits_cached envs ps' partial Hc).
Qed.

(** ** More on registerAndWait *)

Lemma waitForPeers_keeps_published (env : WaitEnv) (ps : PeerSubscriber) :
  published (client (waitForPeers env ps).1) = published (client ps).
Proof.
  unfold waitForPeers. destruct (peers ps); [done|].
  destruct (containerCount ps <? 0); [done|].
  cbn [setPeers containerCount]. destruct (containerCount ps <=? 0); [done|].
  cbn [subscribe containerCount]. destruct (subscribeErr env); [done|].
  by destruct (waitLoop _ _ _ _).
Qed.

(** X15. [registerAndWait] writes nothing of the discovery service but
    [allPeers], and that only when it returns nil: after an error, a panic
    or a wait that never ends the record is as before, and the connected
    set is never touched. *)
Theorem registerAndWait_frame
    (env : RegisterEnv) (s : SyncDiscovery) (ps : PeerSubscriber) :
  let r := registerAndWait env s ps in
  r.1.1 = setAllPeers s (allPeers r.1.1) /\
  connected r.1.1 = connected s /\
  (r.2 <> Returned None -> r.1.1 = s).
Proof.
  assert (Hself : s = setAllPeers s (allPeers s)) by (by destruct s).
  cbn zeta. unfold registerAndWait.
  destruct (register (publishErr env) _ ps) as [ps1 [err|]]; [by cbn|].
  destruct (waitForPeers (waitEnv env) ps1) as [ps2 [[[l|] [err|]]| |]];
    try (by cbn).
  destruct (len l - 1 <? 0); by cbn.
Qed.

(** X16. When the publish fails, [registerAndWait] returns the wrapped
    publish error at once: it does not subscribe or wait, and the subscriber
    and the discovery service are unchanged. *)
Theorem registerAndWait_publish_error
    (env : RegisterEnv) (s : SyncDiscovery) (ps : PeerSubscriber) (e : string) :
  publishErr env = Some e ->
  registerAndWait env s ps = (s, ps, Returned (Some (ErrPublish e))).
Proof. intros He. unfold registerAndWait, register. by rewrite He. Qed.

Lemma registerAndWait_publish_error_witness :
  let s := NewSyncDiscovery (mkHost "n1" [] true) 1 TSinglePublisher in
  let ps := NewPeerSubscriber (mkSyncClient 0 []) 2 in
  registerAndWait (mkRegisterEnv (Some "closed") (mkWaitEnv None [])) s ps
    = (s, ps, Returned (Some (ErrPublish "closed"))).
Proof.
  intros s ps.
  apply (registerAndWait_publish_error
           (mkRegisterEnv (Some "closed") (mkWaitEnv None [])) s ps "closed").
  reflexivity.
Defined.

(** X17. A discovery service made by [NewSyncDiscovery] registers as a
    non-publisher: the constructor never sets [isPublisher], so the one
    record [registerAndWait] publishes carries the host's identity and
    addresses, the given sequence number and [IsPublisher = false], however
    the rest of the call ends. *)
Theorem registerAndWait_publishes_non_publisher
    (env : RegisterEnv) (host : Host) (seq : Z) (topo : Topology)
    (ps : PeerSubscriber) :
  publishErr env = None ->
  published (client (registerAndWait env (NewSyncDiscovery host seq topo) ps).1.2)
    = published (client ps)
      ++ [mkPeerRegistration (InfoFromHost host) seq false].
Proof.
  intros He. unfold registerAndWait, register. rewrite He.
  cbn [NewSyncDiscovery h nodeTypeSeq isPublisher].
  set (ps1 := mkPeerSubscriber _ _ _).
  pose proof (waitForPeers_keeps_published (waitEnv env) ps1) as Hk.
  destruct (waitForPeers (waitEnv env) ps1) as [ps2 [[[l|] [err|]]| |]];
    cbn [fst snd] in *; try done.
  destruct (len l - 1 <? 0); done.
Qed.

Lemma registerAndWait_publishes_non_publisher_witness :
  published
    (client (registerAndWait (mkRegisterEnv None (mkWaitEnv None []))
               (NewSyncDiscovery (mkHost "n1" ["/ip4/10.0.0.1"] true) 1
                  (TRandom (mkRandomTopology 2)))
               (NewPeerSubscriber (mkSyncClient 0 []) 2)).1.2)
  = [] ++ [mkPeerRegistration (InfoFromHost (mkHost "n1" ["/ip4/10.0.0.1"] true))
             1 false].
Proof.
  apply (registerAndWait_publishes_non_publisher
           (mkRegisterEnv None (mkWaitEnv None []))
           (mkHost "n1" ["/ip4/10.0.0.1"] true) 1 (TRandom (mkRandomTopology 2))
           (NewPeerSubscriber (mkSyncClient 0 []) 2)).
  reflexivity.
Defined.

(** X18. When the subscriber's cache is the empty, non-nil list (what an
    earlier pass leaves behind if it ended before any registration
    arrived), [registerAndWait] publishes and then panics on the negative
    capacity [len(peers)-1]; [allPeers] is not written. *)
Theorem registerAndWait_empty_cache_panics
    (env : RegisterEnv) (s : SyncDiscovery) (ps : PeerSubscriber) :
  peers ps = Some [] ->
  publishErr env = None ->
  (registerAndWait env s ps).2 = Panicked "makeslice: cap out of range" /\
  (registerAndWait env s ps).1.1 = s.
Proof.
  intros Hp He. unfold registerAndWait, register. rewrite He.
  set (ps1 := mkPeerSubscriber _ _ _).
  assert (Hp1 : peers ps1 = Some []) by exact Hp.
  rewrite (waitForPeers_cached (waitEnv env) ps1 [] Hp1). by cbn.
Qed.

Lemma registerAndWait_empty_cache_panics_witness :
  let first := waitForPeers (mkWaitEnv None [CtxDone "context canceled"])
                            (NewPeerSubscriber (mkSyncClient 0 []) 2) in
  let s := NewSyncDiscovery (mkHost "n2" [] true) 2 TSinglePublisher in
  let env := mkRegisterEnv None (mkWaitEnv None []) in
  (registerAndWait env s first.1).2 = Panicked "makeslice: cap out of range" /\
  (registerAndWait env s first.1).1.1 = s.
Proof.
  intros first s env.
  apply (registerAndWait_empty_cache_panics env s first.1); reflexivity.
Defined.

(** ** More on connecting *)

Lemma dispatchLoop_dom (selected : list PeerRegistration) :
  forall m tasks,
    dom (dispatchLoop selected m tasks).1 = dom m ∪ list_to_set (ids selected).
Proof.
  induction selected as [|p selected IH]; intros m tasks;
    cbn [dispatchLoop ids map list_to_set].
  - by rewrite (right_id_L ∅ (∪)).
  - destruct (m !! ID (Info p)) eqn:Hm.
    + rewrite IH. assert (Hin : ID (Info p) ∈ dom m) by (apply elem_of_dom; eauto).
      apply set_eq. intros x. rewrite !elem_of_union, elem_of_singleton.
      split; [intros [?|?]; auto | intros [?|[->|?]]; auto].
    + rewrite IH, dom_insert_L.
      apply set_eq. intros x. rewrite !elem_of_union, elem_of_singleton.
      split; [intros [[?|?]|?]; auto | intros [?|[?|?]]; auto].
Qed.

Lemma dispatchLoop_all_known (selected : list PeerRegistration) :
  forall m tasks,
    (forall p, p ∈ selected -> is_Some (m !! ID (Info p))) ->
    dispatchLoop selected m tasks = (m, tasks).
Proof.
  induction selected as [|p selected IH]; intros m tasks Hknown;
    cbn [dispatchLoop]; [reflexivity|].
  destruct (Hknown p) as [v Hv]; [by left|]. rewrite Hv.
  apply IH. intros q Hq. apply Hknown. by right.
Qed.

Lemma len_nonempty {A} (l : list A) : l <> [] -> (len l =? 0) = false.
Proof.
  intros Hne. destruct l; [done|]. apply Z.eqb_neq. unfold len. cbn. lia.
Qed.

(** X19. [ConnectingToPeers] is idempotent: a second call with the same
    non-empty list right after the first starts no attempt and leaves the
    discovery service as the first call left it. *)
Theorem ConnectingToPeers_idempotent
    (selected : list PeerRegistration) (s : SyncDiscovery) :
  selected <> [] ->
  let s1 := (ConnectingToPeers selected s).1 in
  ConnectingToPeers selected s1 = (s1, ConnDispatched []).
Proof.
  intros Hne. cbn zeta. unfold ConnectingToPeers.
  rewrite (len_nonempty _ Hne).
  pose proof (dispatchLoop_dom selected (connected s) []) as Hdom.
  destruct (dispatchLoop selected (connected s) []) as [m tasks].
  cbn [fst connected setConnected] in *.
  rewrite dispatchLoop_all_known; [by cbn|].
  intros p Hp. apply elem_of_dom. rewrite Hdom.
  apply elem_of_union_r, elem_of_list_to_set. unfold ids.
  apply list_elem_of_fmap. by exists p.
Qed.

Lemma ConnectingToPeers_idempotent_witness :
  let selected := [pr "a" 1 true; pr "b" 2 false] in
  let s := NewSyncDiscovery (mkHost "me" [] true) 3 TSinglePublisher in
  let s1 := (ConnectingToPeers selected s).1 in
  ConnectingToPeers selected s1 = (s1, ConnDispatched []).
Proof.
  intros selected s.
  apply (ConnectingToPeers_idempotent selected s). discriminate.
Defined.

(** X20. When the strategy selects a non-empty list, [ConnectTopology] does
    what [ConnectingToPeers] does on that list, and after the call the
    identities in the connected set are the old ones and those of all
    selected peers: every selected peer is recorded, started or not. *)
Theorem ConnectTopology_records_selection
    (indices : list nat) (s : SyncDiscovery)
    (selected : list PeerRegistration) :
  SelectPeers (topology s) indices (hostID (h s)) (allPeers s) = Ok selected ->
  selected <> [] ->
  ConnectTopology None indices s = ConnectingToPeers selected s /\
  exists tasks,
    (ConnectTopology None indices s).2 = ConnDispatched tasks /\
    dom (connected (ConnectTopology None indices s).1)
      = dom (connected s) ∪ list_to_set (ids selected).
Proof.
  intros Hsel Hne. unfold ConnectTopology, ConnectingToPeers.
  rewrite Hsel, (len_nonempty _ Hne). split; [reflexivity|].
  pose proof (dispatchLoop_dom selected (connected s) []) as Hdom.
  destruct (dispatchLoop selected (connected s) []) as [m tasks].
  exists tasks. by cbn [fst snd connected setConnected] in *.
Qed.

Lemma ConnectTopology_records_selection_witness :
  let s := setAllPeers (NewSyncDiscovery (mkHost "me" [] true) 3 TSinglePublisher)
                       [pr "a" 1 true; pr "b" 2 false] in
  ConnectTopology None [] s = ConnectingToPeers [pr "a" 1 true] s /\
  exists tasks,
    (ConnectTopology None [] s).2 = ConnDispatched tasks /\
    dom (connected (ConnectTopology None [] s).1)
      = dom (connected s) ∪ list_to_set (ids [pr "a" 1 true]).
Proof.
  intros s.
  apply (ConnectTopology_records_selection [] s [pr "a" 1 true]).
  - reflexivity.
  - discriminate.
Defined.

Lemma dispatchInv_from_empty (m' : gmap peerID PeerRegistration)
    (new : list PeerRegistration) :
  dispatchInv ∅ m' new ->
  m' = list_to_map (map (fun p => (ID (Info p), p)) new).
Proof.
  intros [Hnd _ Hr _ Hd]. apply map_eq. intros id.
  assert (Hfst : (map (fun p => (ID (Info p), p)) new).*1 = ids new).
  { unfold ids. rewrite <- list_fmap_compose. reflexivity. }
  destruct (decide (id ∈ ids new)) as [Hin|Hnin].
  - unfold ids in Hin. apply list_elem_of_fmap in Hin as (p & -> & Hp).
    rewrite (Hr p Hp). symmetry. apply elem_of_list_to_map; [by rewrite Hfst|].
    apply list_elem_of_fmap. by exists p.
  - transitivity (@None PeerRegistration).
    + destruct (m' !! id) eqn:Hm; [|done].
      destruct (Hd id) as [[v Hv]|Hin]; [eauto| |done].
      by rewrite lookup_empty in Hv.
    + symmetry. apply not_elem_of_list_to_map. by rewrite Hfst.
Qed.

(** X21. On a discovery service that starts with an empty connected set,
    after any sequence of connect calls [Connected()] returns, up to order,
    exactly the peers for which an attempt was started: one entry for each,
    whether its dial has ended, succeeded or failed. *)
Theorem Connected_is_the_started_attempts
    (cs : list connectCall) (s : SyncDiscovery) :
  connected s = ∅ ->
  Connected (runCalls cs s []).1 ≡ₚ (runCalls cs s []).2.
Proof.
  intros Hempty. destruct (runCalls_spec cs s []) as (new & Heq & Hinv).
  cbn [app] in Heq. rewrite Heq. rewrite Hempty in Hinv.
  pose proof (di_nodup _ _ _ Hinv) as Hnd.
  apply dispatchInv_from_empty in Hinv. unfold Connected. rewrite Hinv.
  rewrite map_to_list_to_map.
  - rewrite <- list_fmap_compose. by rewrite list_fmap_id.
  - rewrite <- list_fmap_compose. exact Hnd.
Qed.

Lemma Connected_is_the_started_attempts_witness :
  let s := NewSyncDiscovery (mkHost "me" [] true) 1 TSinglePublisher in
  let cs := [CallConnectingToPeers [pr "a" 1 true; pr "b" 2 false];
             CallConnectingToPeers [pr "b" 2 false; pr "c" 3 false]] in
  Connected (runCalls cs s []).1 ≡ₚ (runCalls cs s []).2.
Proof.
  intros s cs. apply (Connected_is_the_started_attempts cs s). reflexivity.
Defined.

(** ** More on connectWithRetry *)

Section ConnectWithRetryResult.
Variable connect : nat -> option string.
Variable s : SyncDiscovery.
Variable p : AddrInfo.

Let f := fun n : nat => (connect n, [Dial (ID p)]).
Let onRetry := fun (n : nat) (err : string) =>
  if networkIsSwarm (h s) then [ClearBackoff (ID p)] else [].

Lemma retry_loop_nil_iff todo :
  forall n log,
    (retry_loop todo n f onRetry log).1 = None <->
    exists i, (i < todo)%nat /\ connect (n + i) = None.
Proof.
  induction todo as [|todo IH]; intros n log; cbn [retry_loop].
  - split; [discriminate | intros (i & Hi & _); lia].
  - unfold f at 1. destruct (connect n) as [err|] eqn:Hn.
    + specialize (IH (S n) (log ++ [err])).
      destruct (retry_loop todo (S n) f onRetry (log ++ [err])) as [r tr].
      cbn [fst] in *. rewrite IH. split.
      * intros (i & Hi & Hc). exists (S i). split; [lia|].
        by replace (n + S i)%nat with (S n + i)%nat by lia.
      * intros (i & Hi & Hc). destruct i as [|i].
        { rewrite Nat.add_0_r in Hc. congruence. }
        exists i. split; [lia|].
        by replace (S n + i)%nat with (n + S i)%nat by lia.
    + cbn [fst]. split; [|done]. intros _. exists 0%nat.
      split; [lia|]. by rewrite Nat.add_0_r.
Qed.

Lemma retry_loop_only_peer todo :
  forall n log,
    Forall (fun ev => ev = Dial (ID p) \/ ev = ClearBackoff (ID p))
           (retry_loop todo n f onRetry log).2.
Proof.
  induction todo as [|todo IH]; intros n log; cbn [retry_loop].
  - constructor.
  - unfold f at 1. destruct (connect n) as [err|].
    + specialize (IH (S n) (log ++ [err])).
      destruct (retry_loop todo (S n) f onRetry (log ++ [err])) as [r tr].
      cbn [snd] in *. constructor; [by left|]. apply Forall_app. split; [|done].
      unfold onRetry. destruct (networkIsSwarm (h s)); [|constructor].
      constructor; [by right | constructor].
    + cbn [snd]. constructor; [by left | constructor].
Qed.

Lemma retry_loop_error_log (e : nat -> string) todo :
  forall n log,
    (forall i, (i < todo)%nat -> connect (n + i) = Some (e (n + i)%nat)) ->
    (retry_loop todo n f onRetry log).1
      = Some (ErrRetry (log ++ map e (seq n todo))).
Proof.
  induction todo as [|todo IH]; intros n log Hfail; cbn [retry_loop seq map].
  - by rewrite app_nil_r.
  - unfold f at 1. rewrite <- (Nat.add_0_r n) at 1.
    rewrite (Hfail 0%nat) by lia. rewrite Nat.add_0_r.
    specialize (IH (S n) (log ++ [e n])).
    destruct (retry_loop todo (S n) f onRetry (log ++ [e n])) as [r tr].
    cbn [fst] in *. rewrite IH; [by rewrite <- app_assoc|].
    intros i Hi. replace (S n + i)%nat with (n + S i)%nat by lia.
    apply Hfail. lia.
Qed.
End ConnectWithRetryResult.

(** X22. [connectWithRetry] returns nil exactly when one of the first ten
    dials succeeds; otherwise it returns the retry error. What the dial
    would do from the eleventh call on is never looked at. *)
Theorem connectWithRetry_nil_iff
    (connect : nat -> option string) (s : SyncDiscovery) (p : AddrInfo) :
  (connectWithRetry connect s p).1 = None <->
  exists k, (k < MaxConnectRetries)%nat /\ connect k = None.
Proof. unfold connectWithRetry, retry_Do. apply retry_loop_nil_iff. Qed.

(** X23. Everything [connectWithRetry] asks of the transport concerns the
    peer it was given: every dial goes to that peer and only that peer's
    backoff entry is cleared. *)
Theorem connectWithRetry_only_that_peer
    (connect : nat -> option string) (s : SyncDiscovery) (p : AddrInfo) :
  Forall (fun ev => ev = Dial (ID p) \/ ev = ClearBackoff (ID p))
         (connectWithRetry connect s p).2.
Proof. unfold connectWithRetry, retry_Do. apply retry_loop_only_peer. Qed.

(** X24. When all ten dials fail, the error [connectWithRetry] returns holds
    the ten dial errors in the order of the attempts. *)
Theorem connectWithRetry_error_log
    (connect : nat -> option string) (e : nat -> string)
    (s : SyncDiscovery) (p : AddrInfo) :
  (forall i, (i < MaxConnectRetries)%nat -> connect i = Some (e i)) ->
  (connectWithRetry connect s p).1
    = Some (ErrRetry (map e (seq 0 MaxConnectRetries))).
Proof.
  intros Hfail. unfold connectWithRetry, retry_Do.
  by rewrite (retry_loop_error_log connect s p e MaxConnectRetries 0 []).
Qed.

Lemma connectWithRetry_error_log_witness :
  (connectWithRetry (fun n => Some (Itoa (Z.of_nat n))) swarmDiscovery
                    (mkAddrInfo "a" [])).1
  = Some (ErrRetry (map (fun n => Itoa (Z.of_nat n)) (seq 0 MaxConnectRetries))).
Proof.
  apply (connectWithRetry_error_log (fun n => Some (Itoa (Z.of_nat n)))
           (fun n => Itoa (Z.of_nat n)) swarmDiscovery (mkAddrInfo "a" [])).
  intros i _. reflexivity.
Defined.

(** ** Network set-up *)

(** The widest latency bound and bandwidth (in MB) whose scaling by 1000000
    stays within int64, respectively uint64. *)
Lemma wrap64_small (z : Z) : - 2 ^ 63 <= z < 2 ^ 63 -> wrap64 z = z.
Proof. intros Hz. unfold wrap64. rewrite Z.mod_small; lia. Qed.



(** X26. With the sidecar on, both collaborator calls succeeding, latency
    bounds [0 <= min < max <= 9223372036854] and a bandwidth between 0 and
    18446744073709 MB, [setupNetwork] returns a configuration whose latency
    is a whole number of milliseconds [lat] with [min <= lat < max] (the
    upper bound is never reached), whose bandwidth is the given one times
    1000000, on the default network, enabled, with the deny-all routing
    policy. *)
Theorem setupNetwork_config
    (env : NetworkEnv) (latencyMin latencyMax bandwidth : Z) :
  waitInitErr env = None -> configureErr env = None ->
  0 <= latencyMin -> latencyMin < latencyMax -> latencyMax <= maxScalableSeq ->
  0 <= intn env < latencyMax - latencyMin ->
  0 <= bandwidth <= 18446744073709 ->
  exists cfg lat,
    setupNetwork true env latencyMin latencyMax bandwidth = Ok (Some cfg, None) /\
    latencyMin <= lat < latencyMax /\
    ShapeLatency (Default cfg) = lat * 1000000 /\
    Bandwidth (Default cfg) = bandwidth * 1000000 /\
    Network cfg = "default" /\ Enable cfg = true /\
    CallbackState cfg = "network-configured" /\ RoutingPolicy cfg = DenyAll.
Proof.
  intros Hinit Hconf Hmin Hlt Hmax Hr Hbw. unfold maxScalableSeq in Hmax.
  unfold setupNetwork. cbn [negb]. rewrite Hinit, Hconf.
  rewrite (wrap64_small (latencyMax - latencyMin)) by lia.
  replace (latencyMax - latencyMin <=? 0) with false
    by (symmetry; apply Z.leb_gt; lia).
  eexists _, (intn env + latencyMin). split; [reflexivity|].
  cbn [Default ShapeLatency Bandwidth Network Enable CallbackState RoutingPolicy].
  split; [lia|]. split.
  { rewrite (wrap64_small (intn env + latencyMin)) by lia.
    apply wrap64_small. lia. }
  split; [|done]. unfold wrapU64.
  rewrite (Z.mod_small bandwidth) by lia.
  rewrite (Z.mod_small (bandwidth * 1000)) by lia.
  rewrite Z.mod_small by lia. lia.
Qed.

Lemma setupNetwork_config_witness :
  exists cfg lat,
    setupNetwork true (mkNetworkEnv None 7 None) 100 200 10 = Ok (Some cfg, None) /\
    100 <= lat < 200 /\
    ShapeLatency (Default cfg) = lat * 1000000 /\
    Bandwidth (Default cfg) = 10 * 1000000 /\
    Network cfg = "default" /\ Enable cfg = true /\
    CallbackState cfg = "network-configured" /\ RoutingPolicy cfg = DenyAll.
Proof.
  apply (setupNetwork_config (mkNetworkEnv None 7 None) 100 200 10);
    try reflexivity; unfold maxScalableSeq; cbn [intn]; lia.
Defined.

(** ** The strategies and the connect calls together *)

Lemma pickIndices_subset remote idx :
  forall out, pickIndices remote idx = Ok out ->
              forall p, p ∈ out -> p ∈ remote.
Proof.
  induction idx as [|i idx IH]; intros out.
  - intros [= <-] p Hp. by apply elem_of_nil in Hp.
  - intros (q & out' & Hq & Hout & ->)%pickIndices_cons_Ok p Hp.
    apply elem_of_cons in Hp as [->|Hp]; [|by eapply IH].
    by eapply list_elem_of_lookup_2.
Qed.

Lemma RandomTopology_SelectPeers_subset t indices local remote out :
  RandomTopology_SelectPeers t indices local remote = Ok out ->
  forall p, p ∈ out -> p ∈ remote.
Proof.
  unfold RandomTopology_SelectPeers.
  destruct (_ || _).
  { intros [= <-] p Hp. by apply elem_of_nil in Hp. }
  cbn zeta. destruct (_ <? 0); [discriminate|].
  destruct (_ <? _); [discriminate|]. apply pickIndices_subset.
Qed.

Lemma SelectPeers_subset_aux
    (t : Topology) (indices : list nat) (local : peerID)
    (remote selected : list PeerRegistration) :
  SelectPeers t indices local remote = Ok selected ->
  forall p, p ∈ selected -> p ∈ remote.
Proof.
  destruct t as [t|t| |t]; cbn [SelectPeers].
  - apply RandomTopology_SelectPeers_subset.
  - unfold RandomHonestTopology_SelectPeers. destruct (len remote =? 0).
    + intros [= <-] p Hp. by apply elem_of_nil in Hp.
    + intros H p Hp. eapply RandomTopology_SelectPeers_subset in H; [|done].
      apply list_elem_of_In, List.filter_In in H as [H _].
      by apply list_elem_of_In.
  - intros [= <-] p Hp.
    pose proof (selectLoop_picks_publisher remote [] (-1) zeroPeerRegistration)
      as H.
    cbn zeta in H. cbn [app] in H.
    unfold SinglePublisherTopology_SelectPeers, selectSinglePublisher in Hp.
    destruct (selectLoop remote (-1) zeroPeerRegistration) as [lowest lowestp].
    cbn [fst snd] in H.
    destruct H as [[-> _]|(Hne & Hin & _)];
      [left; split; [reflexivity | constructor]| |].
    + by apply elem_of_nil in Hp.
    + replace (lowest =? -1) with false in Hp
        by (symmetry; by apply Z.eqb_neq).
      by apply list_elem_of_singleton in Hp as ->.
  - intros H p Hp.
    by destruct (FixedTopology_result_sound_aux t local remote selected H p Hp).
Qed.

(** X27. Every strategy selects among the peers it is given: whenever
    [SelectPeers] returns normally, each returned peer is an entry of
    [remote]. No strategy makes up a peer, and none reads the local
    identity. *)
Theorem SelectPeers_subset
    (t : Topology) (indices : list nat) (local : peerID)
    (remote selected : list PeerRegistration) :
  SelectPeers t indices local remote = Ok selected ->
  forall p, p ∈ selected -> p ∈ remote.
Proof. apply SelectPeers_subset_aux. Qed.

Lemma SelectPeers_subset_witness :
  pr "b" 7 true ∈ [pr "a" 5 false; pr "b" 7 true].
Proof.
  apply (SelectPeers_subset (TRandomHonest (mkRandomHonestTopology 3 true))
           [0%nat] "me" [pr "a" 5 false; pr "b" 7 true] [pr "b" 7 true]).
  - reflexivity.
  - left.
Defined.

Lemma dispatchLoop_tasks_subset (selected : list PeerRegistration) :
  forall m tasks p,
    p ∈ (dispatchLoop selected m tasks).2 -> p ∈ tasks \/ p ∈ selected.
Proof.
  induction selected as [|q selected IH]; intros m tasks p; cbn [dispatchLoop].
  - by left.
  - destruct (m !! ID (Info q)).
    + intros [?|?]%IH; [by left | right; by right].
    + intros [Hp|?]%IH; [|right; by right].
      apply elem_of_app in Hp as [?|Hp]; [by left|].
      apply list_elem_of_singleton in Hp as ->. right. by left.
Qed.

Lemma registerAndWait_success_state env s ps s' ps' :
  registerAndWait env s ps = (s', ps', Returned None) ->
  h s' = h s /\ topology s' = topology s /\
  exists l, allPeers s' = List.filter (notLocal (hostID (h s))) l.
Proof.
  unfold registerAndWait.
  destruct (register (publishErr env) _ ps) as [ps1 [err|]]; [discriminate|].
  destruct (waitForPeers (waitEnv env) ps1) as [ps2 [[[l|] [err|]]| |]];
    try discriminate.
  destruct (len l - 1 <? 0); [discriminate|].
  intros [= <- <-]. repeat split. by exists l.
Qed.

(** X28. After a successful [registerAndWait], no [ConnectTopology] call
    starts an attempt to the node itself, whatever the strategy selects:
    the strategies pick among [allPeers], and the local record was filtered
    out of it. *)
Theorem ConnectTopology_never_dials_self
    (env : RegisterEnv) (s s1 s2 : SyncDiscovery) (ps ps1 : PeerSubscriber)
    (ctxDone : option string) (indices : list nat)
    (tasks : list PeerRegistration) :
  registerAndWait env s ps = (s1, ps1, Returned None) ->
  ConnectTopology ctxDone indices s1 = (s2, ConnDispatched tasks) ->
  hostID (h s) ∉ ids tasks.
Proof.
  intros (Hh & Ht & l & Hall)%registerAndWait_success_state.
  unfold ConnectTopology. destruct ctxDone; [discriminate|].
  destruct (SelectPeers _ _ _ _) as [selected|] eqn:Hsel; [|discriminate].
  destruct (len selected =? 0); [discriminate|].
  pose proof (dispatchLoop_tasks_subset selected (connected s1) []) as Hsub.
  destruct (dispatchLoop selected (connected s1) []) as [m tasks'].
  intros [= _ <-]. cbn [snd] in Hsub.
  unfold ids. intros (p & Hid & Hp)%list_elem_of_fmap.
  destruct (Hsub p Hp) as [Hnil|Hin]; [by apply elem_of_nil in Hnil|].
  eapply SelectPeers_subset_aux in Hin; [|exact Hsel].
  rewrite Hall in Hin. apply list_elem_of_In, List.filter_In in Hin as [_ Hnl].
  unfold notLocal in Hnl. rewrite <- Hid in Hnl.
  by rewrite String.eqb_refl in Hnl.
Qed.

Lemma ConnectTopology_never_dials_self_witness :
  let env := mkRegisterEnv None (mkWaitEnv None (map RecvPeer fiveNodes)) in
  let s := NewSyncDiscovery (mkHost "n3" [] true) 3 (TRandom (mkRandomTopology 2)) in
  let ps := NewPeerSubscriber (mkSyncClient 0 []) 5 in
  let s1 := (registerAndWait env s ps).1.1 in
  "n3" ∉ ids [pr "n4" 4 false; pr "n1" 1 true].
Proof.
  intros env s ps s1.
  apply (ConnectTopology_never_dials_self env s s1
           (ConnectTopology None [2; 0; 1; 3]%nat s1).1
           ps (registerAndWait env s ps).1.2 None [2; 0; 1; 3]%nat
           [pr "n4" 4 false; pr "n1" 1 true]).
  - reflexivity.
  - reflexivity.
Defined.

Lemma SelectPeers_empty_remote (t : Topology) (indices : list nat)
    (local : peerID) :
  SelectPeers t indices local [] = Ok [].
Proof. destruct t; reflexivity. Qed.

(** X29. With no known peer, [ConnectTopology] panics under every strategy:
    each strategy returns the empty subset on an empty list (none of them
    fails there), and the empty selection is fatal. A node that is alone in
    its run therefore never gets past [ConnectTopology]. *)
Theorem ConnectTopology_without_peers_panics
    (indices : list nat) (s : SyncDiscovery) :
  allPeers s = [] ->
  ConnectTopology None indices s = (s, ConnPanic lonely).
Proof.
  intros Hall. unfold ConnectTopology.
  by rewrite Hall, SelectPeers_empty_remote.
Qed.

Lemma ConnectTopology_without_peers_panics_witness :
  let env := mkRegisterEnv None (mkWaitEnv None [RecvPeer (pr "n1" 1 false)]) in
  let s := NewSyncDiscovery (mkHost "n1" [] true) 1 (TRandom (mkRandomTopology 2)) in
  let ps := NewPeerSubscriber (mkSyncClient 0 []) 1 in
  let s1 := (registerAndWait env s ps).1.1 in
  ConnectTopology None [] s1 = (s1, ConnPanic lonely).
Proof.
  intros env s ps s1.
  apply (ConnectTopology_without_peers_panics [] s1). reflexivity.
Defined.
